(** * SSH brute-force defender (problem-4/level-1.py): a shallow embedding

    The three classes of the script are embedded as functions over explicit
    state: [FirewallController], [SecurityMonitor] and [SSHLogParser].

    - A method that mutates [self] takes the old object and returns the new
      one inside an [outcome], together with the host's new state, the
      exception raised (if any) and the trace of what the call did: every
      external command and every log record, in order.
    - The operating system (subprocess.run, os.system, os.path.exists,
      os.access) is a [Host]: a record of oracles over an arbitrary world
      type.  Theorems quantify over every host.  Starting a thread is
      recorded in the trace; the loop of the thread is the function [run]
      over the failures it reports.  The regular-expression search of
      [_process_log_entry] is a parameter.
    - [datetime.now()] is an argument of the function that reads it.
    - A [datetime] is the record of its fields; [to_us] is its coordinate on
      the proleptic Gregorian time line in microseconds.  The source compares
      a datetime only with the result of [datetime +/- timedelta], so the
      comparison is made on coordinates; a result outside years 1..9999 is
      Python's OverflowError. *)

From Stdlib Require Import ZArith Ascii String List Lia Bool.
From stdpp Require Import base decidable option list gmap strings pretty.

Open Scope string_scope.
Open Scope list_scope.
Open Scope Z_scope.

(** ** Exceptions *)

(** What a call into the operating system can raise: the two classes the
    script names in its handlers, and any other subclass of Exception. *)
Inductive host_exn : Set :=
| FileNotFoundError
| SubprocessError
| OtherException.

Inductive exn : Set :=
| HostExn (e : host_exn)
| ValueError
| OverflowError
| SystemExit (code : Z).

Inductive res (A : Type) : Type :=
| Ret (a : A)
| Raise (e : exn).
Arguments Ret {A} a.
Arguments Raise {A} e.

(** ** datetime *)

Module DT.

Record datetime : Set := mk {
  year : Z; month : Z; day : Z;
  hour : Z; minute : Z; second : Z; microsecond : Z
}.

#[export] Instance datetime_eq_dec : EqDecision datetime.
Proof. solve_decision. Defined.

Definition MINYEAR : Z := 1.
Definition MAXYEAR : Z := 9999.

Definition is_leap (y : Z) : bool :=
  (y mod 4 =? 0) && (negb (y mod 100 =? 0) || (y mod 400 =? 0)).

Definition days_in_month (y m : Z) : Z :=
  if m =? 2 then (if is_leap y then 29 else 28)
  else if (m =? 4) || (m =? 6) || (m =? 9) || (m =? 11) then 30
  else 31.

(** Days in the year before the first day of month [m]. *)
Definition days_before_month (y m : Z) : Z :=
  let common :=
    match m with
    | 1 => 0 | 2 => 31 | 3 => 59 | 4 => 90 | 5 => 120 | 6 => 151
    | 7 => 181 | 8 => 212 | 9 => 243 | 10 => 273 | 11 => 304 | _ => 334
    end in
  if (2 <? m) && is_leap y then common + 1 else common.

(** Days before January 1st of year [y]. *)
Definition days_before_year (y : Z) : Z :=
  let p := y - 1 in p * 365 + p / 4 - p / 100 + p / 400.

(** [date.toordinal()]: January 1st of year 1 is day 1. *)
Definition toordinal (d : datetime) : Z :=
  days_before_year (year d) + days_before_month (year d) (month d) + day d.

Definition US_PER_SECOND : Z := 1000000.
Definition US_PER_DAY : Z := 86400 * US_PER_SECOND.

(** Microseconds since 0001-01-01 00:00:00. *)
Definition to_us (d : datetime) : Z :=
  (toordinal d - 1) * US_PER_DAY
  + (hour d * 3600 + minute d * 60 + second d) * US_PER_SECOND
  + microsecond d.

(** The arguments the constructor [datetime(...)] accepts; anything else is
    a ValueError. *)
Definition valid (d : datetime) : bool :=
  (MINYEAR <=? year d) && (year d <=? MAXYEAR)
  && (1 <=? month d) && (month d <=? 12)
  && (1 <=? day d) && (day d <=? days_in_month (year d) (month d))
  && (0 <=? hour d) && (hour d <=? 23)
  && (0 <=? minute d) && (minute d <=? 59)
  && (0 <=? second d) && (second d <=? 59)
  && (0 <=? microsecond d) && (microsecond d <=? 999999).

Definition make (y mo d h mi s us : Z) : res datetime :=
  let r := mk y mo d h mi s us in
  if valid r then Ret r else Raise ValueError.

(** Coordinates of datetime.min and datetime.max. *)
Definition MIN_US : Z := 0.
Definition MAX_US : Z := 3652059 * US_PER_DAY - 1.

Definition representable (t : Z) : bool := (MIN_US <=? t) && (t <=? MAX_US).

(** [d + timedelta(seconds = s)], as a coordinate; [None] is OverflowError. *)
Definition add_seconds (d : datetime) (s : Z) : option Z :=
  let t := to_us d + s * US_PER_SECOND in
  if representable t then Some t else None.

(** [d - timedelta(seconds = s)]. *)
Definition sub_seconds (d : datetime) (s : Z) : option Z := add_seconds d (- s).

(** [d + timedelta(days = n)]. *)
Definition add_days (d : datetime) (n : Z) : option Z := add_seconds d (n * 86400).

(** [d.replace(year = y)]: the constructor is run again on the new fields. *)
Definition replace_year (d : datetime) (y : Z) : res datetime :=
  make y (month d) (day d) (hour d) (minute d) (second d) (microsecond d).

End DT.
Export DT.

(** ** The host and the trace of a call *)

(** [subprocess.CompletedProcess] with the fields the script reads. *)
Record CompletedProcess : Set := {
  returncode : Z;
  stdout : string;
  stderr : string
}.

Inductive answer (A : Type) : Type :=
| Ok (a : A)
| Fail (e : host_exn).
Arguments Ok {A} a.
Arguments Fail {A} e.

Record Host (W : Type) : Type := {
  subprocess_run : list string -> W -> answer CompletedProcess * W;
  os_system : string -> W -> answer Z * W;
  os_path_exists : string -> W -> bool * W;
  os_access_R_OK : string -> W -> bool * W
}.
Arguments subprocess_run {W} _ _ _.
Arguments os_system {W} _ _ _.
Arguments os_path_exists {W} _ _.
Arguments os_access_R_OK {W} _ _.

(** One constructor per call of [logger] in the three classes; the
    arguments are the values formatted into the message. *)
Inductive log_record : Set :=
| Info_using_ufw
| Info_using_iptables
| Error_no_firewall
| Info_simulation (ip : string)
| Error_cannot_block (ip : string)
| Info_ufw_blocked (ip : string)
| Error_ufw_failed (ip : string) (err : string)
| Error_ufw_exception (ip : string) (e : host_exn)
| Info_iptables_already (ip : string)
| Info_iptables_blocked (ip : string)
| Error_iptables_failed (ip : string) (err : string)
| Error_iptables_exception (ip : string) (e : host_exn)
| Error_no_log_source
| Warning_already_running
| Info_starting (log_source : string)
| Debug_detected (ip : string)
| Warning_bad_timestamp (timestamp_str : string)
| Debug_whitelisted (ip : string)
| Debug_already_blocked (ip : string)
| Warning_threshold (ip : string) (failure_count : nat) (time_window : Z).

Inductive event : Set :=
| Run (argv : list string)        (* subprocess.run(argv, ...) *)
| System (cmd : string)           (* os.system(cmd) *)
| PathExists (path : string)      (* os.path.exists(path) *)
| Access (path : string)          (* os.access(path, os.R_OK) *)
| ThreadStart (target : string)   (* threading.Thread(target=...).start() *)
| Log (r : log_record).

(** The result of a call that leaves its object unchanged. *)
Record io (W A : Type) : Type := IO {
  io_val : A;
  io_world : W;
  io_trace : list event
}.
Arguments IO {W A} _ _ _.
Arguments io_val {W A} _.
Arguments io_world {W A} _.
Arguments io_trace {W A} _.

(** The result of a method that may mutate [self] and may raise. *)
Record outcome (W S A : Type) : Type := Outcome {
  value : res A;
  self : S;
  world : W;
  trace : list event
}.
Arguments Outcome {W S A} _ _ _ _.
Arguments value {W S A} _.
Arguments self {W S A} _.
Arguments world {W S A} _.
Arguments trace {W S A} _.

(** ** FirewallController *)

Record FirewallController : Set := {
  simulation_mode : bool;
  firewall_system : string
}.

(** [needle in haystack] on str. *)
Definition str_in (needle haystack : string) : bool :=
  match String.index 0 needle haystack with Some _ => true | None => false end.

Definition ufw_status_argv : list string := ["ufw"; "status"].
Definition iptables_version_argv : list string := ["iptables"; "--version"].
Definition ufw_deny_argv (ip : string) : list string :=
  ["ufw"; "deny"; "from"; ip; "to"; "any"].
Definition iptables_check_cmd (ip : string) : string :=
  ("iptables -C INPUT -s " ++ ip ++ " -j DROP 2>/dev/null")%string.
Definition iptables_add_argv (ip : string) : list string :=
  ["iptables"; "-A"; "INPUT"; "-s"; ip; "-j"; "DROP"].

Section Firewall.
Context {W : Type} (host : Host W).

(** The second half of [_detect_available_firewall], entered when ufw is not
    chosen; [tr] is the trace so far. *)
Definition detect_iptables (w : W) (tr : list event) : io W (res string) :=
  let '(r, w1) := subprocess_run host iptables_version_argv w in
  let tr1 := tr ++ [Run iptables_version_argv] in
  match r with
  | Ok cp =>
      if returncode cp =? 0
      then IO (Ret "iptables") w1 (tr1 ++ [Log Info_using_iptables])
      else IO (Ret "none") w1 (tr1 ++ [Log Error_no_firewall])
  | Fail OtherException => IO (Raise (HostExn OtherException)) w1 tr1
  | Fail _ => IO (Ret "none") w1 (tr1 ++ [Log Error_no_firewall])
  end.

Definition _detect_available_firewall (w : W) : io W (res string) :=
  let '(r, w1) := subprocess_run host ufw_status_argv w in
  let tr1 := [Run ufw_status_argv] in
  match r with
  | Ok cp =>
      if (returncode cp =? 0) && str_in "Status: active" (stdout cp)
      then IO (Ret "ufw") w1 (tr1 ++ [Log Info_using_ufw])
      else detect_iptables w1 tr1
  | Fail OtherException => IO (Raise (HostExn OtherException)) w1 tr1
  | Fail _ => detect_iptables w1 tr1
  end.

(** [FirewallController.__init__]. *)
Definition FirewallController_init (simulation : bool) (w : W)
  : io W (res FirewallController) :=
  let r := _detect_available_firewall w in
  match io_val r with
  | Ret sys =>
      IO (Ret {| simulation_mode := simulation; firewall_system := sys |})
         (io_world r) (io_trace r)
  | Raise e => IO (Raise e) (io_world r) (io_trace r)
  end.

Definition _block_with_ufw (ip : string) (w : W) : io W bool :=
  let '(r, w1) := subprocess_run host (ufw_deny_argv ip) w in
  match r with
  | Ok result =>
      let success := returncode result =? 0 in
      IO success w1
         [Run (ufw_deny_argv ip);
          Log (if success then Info_ufw_blocked ip
               else Error_ufw_failed ip (stderr result))]
  | Fail e => IO false w1 [Run (ufw_deny_argv ip); Log (Error_ufw_exception ip e)]
  end.

Definition _block_with_iptables (ip : string) (w : W) : io W bool :=
  let check_cmd := iptables_check_cmd ip in
  let '(c, w1) := os_system host check_cmd w in
  match c with
  | Fail e => IO false w1 [System check_cmd; Log (Error_iptables_exception ip e)]
  | Ok status =>
      let rule_exists := status =? 0 in
      if rule_exists
      then IO true w1 [System check_cmd; Log (Info_iptables_already ip)]
      else
        let '(r, w2) := subprocess_run host (iptables_add_argv ip) w1 in
        match r with
        | Ok result =>
            let success := returncode result =? 0 in
            IO success w2
               [System check_cmd; Run (iptables_add_argv ip);
                Log (if success then Info_iptables_blocked ip
                     else Error_iptables_failed ip (stderr result))]
        | Fail e =>
            IO false w2
               [System check_cmd; Run (iptables_add_argv ip);
                Log (Error_iptables_exception ip e)]
        end
  end.

Definition block_ip (fw : FirewallController) (ip : string) (w : W) : io W bool :=
  if simulation_mode fw then IO true w [Log (Info_simulation ip)]
  else if String.eqb (firewall_system fw) "ufw" then _block_with_ufw ip w
  else if String.eqb (firewall_system fw) "iptables" then _block_with_iptables ip w
  else IO false w [Log (Error_cannot_block ip)].

End Firewall.

(** ** SecurityMonitor *)

Record SecurityMonitor : Type := {
  failure_threshold : Z;
  time_window : Z;
  safe_ips : gset string;
  firewall : option FirewallController;
  failures_by_ip : gmap string (list datetime);
  blocked_ips : gset string
}.

(** [SecurityMonitor.__init__]: the arguments are stored as they come. *)
Definition SecurityMonitor_init (failure_threshold time_window : Z)
    (safe_ips : list string) : SecurityMonitor :=
  {| failure_threshold := failure_threshold;
     time_window := time_window;
     safe_ips := list_to_set safe_ips;
     firewall := None;
     failures_by_ip := ∅;
     blocked_ips := ∅ |}.

Definition set_firewall (fw : FirewallController) (s : SecurityMonitor)
  : SecurityMonitor :=
  {| failure_threshold := failure_threshold s;
     time_window := time_window s;
     safe_ips := safe_ips s;
     firewall := Some fw;
     failures_by_ip := failures_by_ip s;
     blocked_ips := blocked_ips s |}.

(** Reading [self.failures_by_ip[ip]] of the defaultdict(list). *)
Definition failures_of (s : SecurityMonitor) (ip : string) : list datetime :=
  default [] (failures_by_ip s !! ip).

(** [self.failures_by_ip[ip] = l] *)
Definition with_failures (s : SecurityMonitor) (ip : string) (l : list datetime)
  : SecurityMonitor :=
  {| failure_threshold := failure_threshold s;
     time_window := time_window s;
     safe_ips := safe_ips s;
     firewall := firewall s;
     failures_by_ip := <[ip := l]> (failures_by_ip s);
     blocked_ips := blocked_ips s |}.

(** [self.blocked_ips.add(ip)] *)
Definition with_blocked (s : SecurityMonitor) (ip : string) : SecurityMonitor :=
  {| failure_threshold := failure_threshold s;
     time_window := time_window s;
     safe_ips := safe_ips s;
     firewall := firewall s;
     failures_by_ip := failures_by_ip s;
     blocked_ips := {[ip]} ∪ blocked_ips s |}.

(** [[ts for ts in l if ts > cutoff]], the cutoff being a coordinate. *)
Definition newer_than (cutoff : Z) (l : list datetime) : list datetime :=
  filter (λ ts, cutoff < to_us ts) l.

Section Monitor.
Context {W : Type} (host : Host W).

Definition record_failure (ip : string) (timestamp now : datetime)
    (s : SecurityMonitor) (w : W) : outcome W SecurityMonitor unit :=
  if decide (ip ∈ safe_ips s) then
    Outcome (Ret ()) s w [Log (Debug_whitelisted ip)]
  else if decide (ip ∈ blocked_ips s) then
    Outcome (Ret ()) s w [Log (Debug_already_blocked ip)]
  else
    let s1 := with_failures s ip (failures_of s ip ++ [timestamp]) in
    match sub_seconds now (time_window s1) with
    | None => Outcome (Raise OverflowError) s1 w []
    | Some cutoff =>
        let s2 := with_failures s1 ip (newer_than cutoff (failures_of s1 ip)) in
        let failure_count := length (failures_of s2 ip) in
        if failure_threshold s2 <=? Z.of_nat failure_count then
          let warn := Log (Warning_threshold ip failure_count (time_window s2)) in
          match firewall s2 with
          | Some fw =>
              let b := block_ip host fw ip w in
              if io_val b then
                Outcome (Ret ()) (with_failures (with_blocked s2 ip) ip [])
                        (io_world b) (warn :: io_trace b)
              else Outcome (Ret ()) s2 (io_world b) (warn :: io_trace b)
          | None => Outcome (Ret ()) s2 w [warn]
          end
        else Outcome (Ret ()) s2 w []
    end.

End Monitor.

(** ** datetime.strptime for the two formats of TIME_FORMATS

    The directives follow the regular expressions of Python's [_strptime]:
    a numeric directive reads one or two digits (four for %Y) and must be
    followed by the next literal of the format, so it reads the whole run
    of digits; %d also reads one space followed by one digit from 1 to 9;
    white space in the format stands for one or more white-space
    characters; %b is matched without regard to case; the whole string must
    be consumed; the fields then go through the [datetime] constructor.

    A [string] is the sequence of the code points of a Python str, one
    [ascii] for each, so that it holds the code points below 256.  Among
    these the decimal digits of [\d] are 0 to 9 and the white space of
    [\s] is 9 to 13, 28 to 32, 133 and 160.  The code points from 256 on,
    with the other decimal digits and spaces of Unicode that Python reads
    as well, are outside the type: the model accepts no string that the
    code refuses and gives the same datetime on those it accepts. *)

Module Strptime.

Definition is_digit (c : ascii) : bool :=
  let n := Z.of_nat (nat_of_ascii c) in (48 <=? n) && (n <=? 57).

Definition digit_value (c : ascii) : Z := Z.of_nat (nat_of_ascii c) - 48.

Definition is_space (c : ascii) : bool :=
  let n := Z.of_nat (nat_of_ascii c) in
  (n =? 32) || ((9 <=? n) && (n <=? 13)) || ((28 <=? n) && (n <=? 31))
  || (n =? 133) || (n =? 160).

Definition lower (c : ascii) : ascii :=
  let n := nat_of_ascii c in
  if (65 <=? Z.of_nat n) && (Z.of_nat n <=? 90) then ascii_of_nat (n + 32) else c.

(** The leading run of digits and what follows it. *)
Fixpoint span_digits (s : string) : list Z * string :=
  match s with
  | String c rest =>
      if is_digit c
      then let '(ds, r) := span_digits rest in (digit_value c :: ds, r)
      else ([], s)
  | EmptyString => ([], s)
  end.

Definition number (ds : list Z) : Z := fold_left (λ acc d, acc * 10 + d) ds 0.

(** A directive of one or two digits with value in [lo, hi]. *)
Definition field (lo hi : Z) (s : string) : option (Z * string) :=
  let '(ds, r) := span_digits s in
  let v := number ds in
  if ((length ds =? 1)%nat || (length ds =? 2)%nat) && (lo <=? v) && (v <=? hi)
  then Some (v, r) else None.

(** %d: a day of one or two digits, or one space and one digit from 1 to 9. *)
Definition field_d (s : string) : option (Z * string) :=
  match field 1 31 s with
  | Some r => Some r
  | None =>
      match s with
      | String " " (String c rest) =>
          if is_digit c && (1 <=? digit_value c)
          then Some (digit_value c, rest) else None
      | _ => None
      end
  end.

(** %Y: exactly four digits. *)
Definition field_Y (s : string) : option (Z * string) :=
  let '(ds, r) := span_digits s in
  if (length ds =? 4)%nat then Some (number ds, r) else None.

Fixpoint drop_spaces (s : string) : string :=
  match s with
  | String c rest => if is_space c then drop_spaces rest else s
  | EmptyString => s
  end.

(** One or more white-space characters. *)
Definition spaces (s : string) : option string :=
  match s with
  | String c rest => if is_space c then Some (drop_spaces rest) else None
  | EmptyString => None
  end.

Definition literal (c : ascii) (s : string) : option string :=
  match s with
  | String c' rest => if Ascii.eqb c c' then Some rest else None
  | EmptyString => None
  end.

Definition month_of_abbr (a b c : ascii) : option Z :=
  let name := String (lower a) (String (lower b) (String (lower c) EmptyString)) in
  if String.eqb name "jan" then Some 1
  else if String.eqb name "feb" then Some 2
  else if String.eqb name "mar" then Some 3
  else if String.eqb name "apr" then Some 4
  else if String.eqb name "may" then Some 5
  else if String.eqb name "jun" then Some 6
  else if String.eqb name "jul" then Some 7
  else if String.eqb name "aug" then Some 8
  else if String.eqb name "sep" then Some 9
  else if String.eqb name "oct" then Some 10
  else if String.eqb name "nov" then Some 11
  else if String.eqb name "dec" then Some 12
  else None.

(** %b *)
Definition field_b (s : string) : option (Z * string) :=
  match s with
  | String a (String b (String c rest)) =>
      match month_of_abbr a b c with Some m => Some (m, rest) | None => None end
  | _ => None
  end.

(** %H:%M:%S up to the end of the string; seconds 60 and 61 pass the
    directive and are refused by the constructor. *)
Definition clock (s : string) : option (Z * Z * Z) :=
  '(h, s1) ← field 0 23 s;
  s2 ← literal ":" s1;
  '(mi, s3) ← field 0 59 s2;
  s4 ← literal ":" s3;
  '(sec, s5) ← field 0 61 s4;
  if String.eqb s5 "" then Some (h, mi, sec) else None.

(** The fields matched by '%Y %b %d %H:%M:%S'. *)
Definition match_auth_log (data : string) : option (Z * Z * Z * (Z * Z * Z)) :=
  '(y, s1) ← field_Y data;
  s2 ← spaces s1;
  '(mo, s3) ← field_b s2;
  s4 ← spaces s3;
  '(d, s5) ← field_d s4;
  s6 ← spaces s5;
  hms ← clock s6;
  Some (y, mo, d, hms).

(** The fields matched by '%Y-%m-%d %H:%M:%S'. *)
Definition match_journald (data : string) : option (Z * Z * Z * (Z * Z * Z)) :=
  '(y, s1) ← field_Y data;
  s2 ← literal "-" s1;
  '(mo, s3) ← field 1 12 s2;
  s4 ← literal "-" s3;
  '(d, s5) ← field_d s4;
  s6 ← spaces s5;
  hms ← clock s6;
  Some (y, mo, d, hms).

Definition build (m : option (Z * Z * Z * (Z * Z * Z))) : res datetime :=
  match m with
  | Some (y, mo, d, (h, mi, sec)) => DT.make y mo d h mi sec 0
  | None => Raise ValueError
  end.

End Strptime.

(** ** SSHLogParser *)

Inductive source_type : Set := auth_log | journald.

Definition source_name (t : source_type) : string :=
  match t with auth_log => "auth_log" | journald => "journald" end.

(** [datetime.strptime(data, self.TIME_FORMATS[source_type])] *)
Definition strptime (data : string) (t : source_type) : res datetime :=
  match t with
  | auth_log => Strptime.build (Strptime.match_auth_log data)
  | journald => Strptime.build (Strptime.match_journald data)
  end.

(** The string f"{current_year} {timestamp_str}". *)
Definition with_year (current_year : Z) (timestamp_str : string) : string :=
  (pretty current_year ++ " " ++ timestamp_str)%string.

(** [str(y)] is made of digits that read back as [y], four of them exactly
    when [y] has four digits: the check run over the years of [datetime]. *)
Definition year_text_ok (y : Z) : bool :=
  let cs := list_ascii_of_string (pretty y) in
  forallb Strptime.is_digit cs
  && (Strptime.number (map Strptime.digit_value cs) =? y)
  && Bool.eqb (length cs =? 4)%nat (1000 <=? y).

(** The timestamp computed by the [try] block of [_process_log_entry]
    (lines 255-266).  [now_year] and [now_cmp] are the two readings of
    [datetime.now()], in program order. *)
Definition parse_timestamp (t : source_type) (timestamp_str : string)
    (now_year now_cmp : datetime) : res datetime :=
  match t with
  | auth_log =>
      let current_year := year now_year in
      match strptime (with_year current_year timestamp_str) auth_log with
      | Raise e => Raise e
      | Ret timestamp =>
          match add_days now_cmp 1 with
          | None => Raise OverflowError
          | Some limit =>
              if limit <? to_us timestamp
              then replace_year timestamp (current_year - 1)
              else Ret timestamp
          end
      end
  | journald => strptime timestamp_str journald
  end.

Record SSHLogParser : Type := {
  security_monitor : SecurityMonitor;
  is_active : bool;
  monitor_thread : option string;   (* target of the thread, once started *)
  auth_log_path : string
}.

(** [SSHLogParser.__init__] *)
Definition SSHLogParser_init (security_monitor : SecurityMonitor) : SSHLogParser :=
  {| security_monitor := security_monitor;
     is_active := false;
     monitor_thread := None;
     auth_log_path := "/var/log/auth.log" |}.

Definition with_is_active (p : SSHLogParser) (b : bool) : SSHLogParser :=
  {| security_monitor := security_monitor p;
     is_active := b;
     monitor_thread := monitor_thread p;
     auth_log_path := auth_log_path p |}.

Definition with_monitor_thread (p : SSHLogParser) (target : string) : SSHLogParser :=
  {| security_monitor := security_monitor p;
     is_active := is_active p;
     monitor_thread := Some target;
     auth_log_path := auth_log_path p |}.

Definition with_security_monitor (p : SSHLogParser) (s : SecurityMonitor)
  : SSHLogParser :=
  {| security_monitor := s;
     is_active := is_active p;
     monitor_thread := monitor_thread p;
     auth_log_path := auth_log_path p |}.

Definition journalctl_version_argv : list string := ["journalctl"; "--version"].

(** The command-line values the main block hands to the constructors. *)
Record Args : Type := {
  threshold : Z;
  window : Z;
  whitelist : list string;
  simulate : bool
}.

Section Parser.
Context {W : Type} (host : Host W).

(** [pattern.search(log_entry)] followed by [match.groups()], for the
    pattern of each source: the regular-expression engine is a parameter. *)
Variable search : source_type -> string -> option (string * string * string).

(** The fallback of [determine_log_source]: subprocess.run with check=True
    raises CalledProcessError, a SubprocessError, on a non-zero exit. *)
Definition try_journalctl (w : W) (tr : list event) : io W (res source_type) :=
  let '(r, w1) := subprocess_run host journalctl_version_argv w in
  let tr1 := tr ++ [Run journalctl_version_argv] in
  let no_source := IO (Raise (SystemExit 1)) w1 (tr1 ++ [Log Error_no_log_source]) in
  match r with
  | Ok cp => if returncode cp =? 0 then IO (Ret journald) w1 tr1 else no_source
  | Fail OtherException => IO (Raise (HostExn OtherException)) w1 tr1
  | Fail _ => no_source
  end.

Definition determine_log_source (p : SSHLogParser) (w : W) : io W (res source_type) :=
  let '(e, w1) := os_path_exists host (auth_log_path p) w in
  let tr1 := [PathExists (auth_log_path p)] in
  if e then
    let '(a, w2) := os_access_R_OK host (auth_log_path p) w1 in
    let tr2 := tr1 ++ [Access (auth_log_path p)] in
    if a then IO (Ret auth_log) w2 tr2 else try_journalctl w2 tr2
  else try_journalctl w1 tr1.

Definition thread_target (t : source_type) : string :=
  match t with auth_log => "_monitor_auth_log" | journald => "_monitor_journald" end.

Definition start_monitoring (p : SSHLogParser) (w : W) : outcome W SSHLogParser unit :=
  if is_active p then Outcome (Ret ()) p w [Log Warning_already_running]
  else
    let p1 := with_is_active p true in
    let src := determine_log_source p1 w in
    match io_val src with
    | Raise e => Outcome (Raise e) p1 (io_world src) (io_trace src)
    | Ret log_source =>
        Outcome (Ret ())
                (with_monitor_thread p1 (thread_target log_source))
                (io_world src)
                (io_trace src
                 ++ [Log (Info_starting (source_name log_source));
                     ThreadStart (thread_target log_source)])
    end.

(** [_process_log_entry]; [now_year], [now_cmp] and [now_rec] are the
    readings of [datetime.now()] at lines 259, 263 and 323. *)
Definition _process_log_entry (log_entry : string) (t : source_type)
    (now_year now_cmp now_rec : datetime) (p : SSHLogParser) (w : W)
  : outcome W SSHLogParser unit :=
  match search t log_entry with
  | None => Outcome (Ret ()) p w []
  | Some (timestamp_str, failure_type, source_ip) =>
      match parse_timestamp t timestamp_str now_year now_cmp with
      | Raise ValueError =>
          Outcome (Ret ()) p w [Log (Warning_bad_timestamp timestamp_str)]
      | Raise e => Outcome (Raise e) p w []
      | Ret timestamp =>
          let o := record_failure host source_ip timestamp now_rec
                                  (security_monitor p) w in
          Outcome (value o) (with_security_monitor p (self o)) (world o)
                  (Log (Debug_detected source_ip) :: trace o)
      end
  end.

(** The main block from "Initialize components" to "Start monitoring"
    (lines 429-442); the result carries the parser when it was built. *)
Definition main_start (args : Args) (w : W) : outcome W (option SSHLogParser) unit :=
  let security_monitor :=
    SecurityMonitor_init (threshold args) (window args) (whitelist args) in
  let f := FirewallController_init host (simulate args) w in
  match io_val f with
  | Raise e => Outcome (Raise e) None (io_world f) (io_trace f)
  | Ret firewall_controller =>
      let security_monitor := set_firewall firewall_controller security_monitor in
      let ssh_log_parser := SSHLogParser_init security_monitor in
      let o := start_monitoring ssh_log_parser (io_world f) in
      Outcome (value o) (Some (self o)) (world o) (io_trace f ++ trace o)
  end.

End Parser.

(** ** Sequences of failures and the observations made on a trace *)

(** One call [record_failure(ip, timestamp)] made when the clock reads [now]. *)
Record failure : Set := Failure {
  f_ip : string;
  f_timestamp : datetime;
  f_now : datetime
}.

(** The failures of one address, each given as (timestamp, now). *)
Definition failures_for (ip : string) (calls : list (datetime * datetime))
  : list failure :=
  map (λ c, Failure ip c.1 c.2) calls.

Section Runs.
Context {W : Type} (host : Host W).

(** The calls in order, as the monitoring loop makes them; an exception
    ends the loop.  The result lists the outcome of every call made. *)
Fixpoint run (calls : list failure) (s : SecurityMonitor) (w : W)
  : list (outcome W SecurityMonitor unit) :=
  match calls with
  | [] => []
  | c :: rest =>
      let o := record_failure host (f_ip c) (f_timestamp c) (f_now c) s w in
      o :: match value o with
           | Ret _ => run rest (self o) (world o)
           | Raise _ => []
           end
  end.

(** The states a monitor built with the given arguments can be in. *)
Inductive reachable (failure_threshold time_window : Z) (safe_ips : list string)
  : SecurityMonitor -> Prop :=
| reach_init :
    reachable failure_threshold time_window safe_ips
      (SecurityMonitor_init failure_threshold time_window safe_ips)
| reach_set_firewall s fw :
    reachable failure_threshold time_window safe_ips s ->
    reachable failure_threshold time_window safe_ips (set_firewall fw s)
| reach_record_failure s ip timestamp now w :
    reachable failure_threshold time_window safe_ips s ->
    reachable failure_threshold time_window safe_ips
      (self (record_failure host ip timestamp now s w)).

End Runs.

(** The monitor after the last outcome of a run that started in [s]. *)
Definition state_after {W : Type} (s : SecurityMonitor)
    (os : list (outcome W SecurityMonitor unit)) : SecurityMonitor :=
  match last os with Some o => self o | None => s end.

Definition is_external (e : event) : bool :=
  match e with Log _ => false | _ => true end.

(** The commands and system calls of a trace. *)
Definition external_calls (tr : list event) : list event :=
  List.filter is_external tr.

(** The number of times the add-rule command for [ip] was run. *)
Definition add_rule_invocations (ip : string) (tr : list event) : nat :=
  length (List.filter
            (λ e, match e with
                  | Run argv => bool_decide (argv = iptables_add_argv ip)
                  | _ => false
                  end) tr).

(** The block decisions of a trace: the addresses reported over threshold. *)
Definition block_decisions (tr : list event) : list string :=
  omap (λ e, match e with
             | Log (Warning_threshold ip _ _) => Some ip
             | _ => None
             end) tr.

(** What the window keeps of history [h] after a failure stamped [c.1] is
    recorded at clock reading [c.2]. *)
Definition prune (time_window : Z) (h : list datetime) (c : datetime * datetime)
  : list datetime :=
  newer_than (to_us c.2 - time_window * US_PER_SECOND) (h ++ [c.1]).

(** The timestamps retained after a sequence of failures, none of them
    followed by a block. *)
Definition retained (time_window : Z) (h : list datetime)
    (calls : list (datetime * datetime)) : list datetime :=
  fold_left (prune time_window) calls h.

(** [now - window] is a datetime. *)
Definition cutoff_ok (time_window : Z) (now : datetime) : Prop :=
  representable (to_us now - time_window * US_PER_SECOND) = true.

(** What holds of every state of a monitor built with the given arguments:
    the configuration is the one given, a blocked address is not whitelisted
    and has an empty history, a whitelisted address has no history. *)
Definition monitor_invariant (failure_threshold0 time_window0 : Z)
    (safe : list string) (s : SecurityMonitor) : Prop :=
  failure_threshold s = failure_threshold0
  /\ time_window s = time_window0
  /\ safe_ips s = list_to_set safe
  /\ (forall ip, ip ∈ blocked_ips s ->
        (ip ∉ safe_ips s) /\ failures_by_ip s !! ip = Some [])
  /\ (forall ip, ip ∈ safe_ips s -> failures_by_ip s !! ip = None).

(** ** A concrete host, for closed examples

    The world is the list of addresses with a DROP rule.  iptables works,
    ufw is not installed, /var/log/auth.log is readable. *)

Module Demo.

Definition world : Set := list string.

Definition exit_zero : CompletedProcess :=
  {| returncode := 0; stdout := ""; stderr := "" |}.

Definition run (argv : list string) (w : world) : answer CompletedProcess * world :=
  match argv with
  | ["iptables"; "-A"; "INPUT"; "-s"; ip; "-j"; "DROP"] => (Ok exit_zero, w ++ [ip])
  | ["iptables"; "--version"] => (Ok exit_zero, w)
  | _ => (Fail FileNotFoundError, w)
  end.

Definition system (cmd : string) (w : world) : answer Z * world :=
  if existsb (λ ip, String.eqb cmd (iptables_check_cmd ip)) w
  then (Ok 0, w) else (Ok 256, w).

Definition readable (path : string) (w : world) : bool * world :=
  (String.eqb path "/var/log/auth.log", w).

Definition host : Host world :=
  {| subprocess_run := run;
     os_system := system;
     os_path_exists := readable;
     os_access_R_OK := readable |}.

Definition simulated : FirewallController :=
  {| simulation_mode := true; firewall_system := "iptables" |}.

Definition iptables : FirewallController :=
  {| simulation_mode := false; firewall_system := "iptables" |}.

Definition attacker : string := "203.0.113.7".

(** A day taken as time zero, and the instant [n] seconds into its first
    two minutes. *)
Definition at_second (n : Z) : datetime := DT.mk 2024 1 1 0 (n / 60) (n mod 60) 0.

End Demo.

(** The example of the specification: failures at 0 s, 10 s and 70 s, each
    recorded at its own time, with a window of 60 s and no whitelist. *)
Definition eviction_calls : list (datetime * datetime) :=
  [(Demo.at_second 0, Demo.at_second 0);
   (Demo.at_second 10, Demo.at_second 10);
   (Demo.at_second 70, Demo.at_second 70)].

Definition eviction_monitor (fw : FirewallController) (failure_threshold : Z)
  : SecurityMonitor :=
  set_firewall fw (SecurityMonitor_init failure_threshold 60 []).

Definition eviction_run {W : Type} (host : Host W) (fw : FirewallController)
    (failure_threshold : Z) (w : W) : list (outcome W SecurityMonitor unit) :=
  run host (failures_for Demo.attacker eviction_calls)
      (eviction_monitor fw failure_threshold) w.

(** A host on which every command is refused with exit status 4, as for a
    user without the rights to change the firewall; checks and paths
    answer as on the host of [Demo]. *)
Definition refused : CompletedProcess :=
  {| returncode := 4; stdout := ""; stderr := "Permission denied" |}.

Definition unprivileged_host : Host Demo.world :=
  {| subprocess_run := λ _ w, (Ok refused, w);
     os_system := Demo.system;
     os_path_exists := Demo.readable;
     os_access_R_OK := Demo.readable |}.


(** The number of threads started in a trace. *)
Definition thread_starts (tr : list event) : nat :=
  length (List.filter (λ e, match e with ThreadStart _ => true | _ => false end) tr).

(** Every history of the monitor is empty or shorter than the threshold. *)
Definition history_bounded (s : SecurityMonitor) : Prop :=
  forall ip, failures_of s ip = []
             \/ Z.of_nat (length (failures_of s ip)) < failure_threshold s.

(** * Properties *)

(** ** The model of strptime on the formats of the script *)

Example strptime_auth_log_example :
  strptime "2023 Mar 15 21:34:56" auth_log = Ret (DT.mk 2023 3 15 21 34 56 0).
Proof. reflexivity. Qed.

Example strptime_journald_example :
  strptime "2023-03-15 21:34:56" journald = Ret (DT.mk 2023 3 15 21 34 56 0).
Proof. reflexivity. Qed.

Example strptime_single_digits :
  strptime "2024 mar  5 1:02:03" auth_log = Ret (DT.mk 2024 3 5 1 2 3 0).
Proof. reflexivity. Qed.

Example strptime_no_such_day :
  strptime "2023 Feb 29 01:02:03" auth_log = Raise ValueError.
Proof. reflexivity. Qed.

Example strptime_leap_second :
  strptime "2024 Mar 15 21:34:60" auth_log = Raise ValueError.
Proof. reflexivity. Qed.

Example strptime_short_year :
  strptime (with_year 999 "Mar 15 21:34:56") auth_log = Raise ValueError.
Proof. reflexivity. Qed.

Example strptime_other_spaces :
  strptime (String "2" (String "0" (String "2" (String "4"
             (String (ascii_of_nat 160) "Jan"))))
            ++ String (ascii_of_nat 133) "15 00:00:10")%string auth_log
  = Ret (DT.mk 2024 1 15 0 0 10 0).
Proof. reflexivity. Qed.

Example strptime_space_before_day :
  strptime "2024-03- 9 01:02:03" journald = Ret (DT.mk 2024 3 9 1 2 3 0)
  /\ strptime "2024-03-  9 01:02:03" journald = Raise ValueError
  /\ strptime "2024-03- 91 01:02:03" journald = Raise ValueError
  /\ strptime "2024-03- 0 01:02:03" journald = Raise ValueError
  /\ strptime "2024- 3-09 01:02:03" journald = Raise ValueError.
Proof. repeat split. Qed.

Example toordinal_example :
  toordinal (DT.mk 2024 2 29 0 0 0 0) = 738945
  /\ toordinal (DT.mk 9999 12 31 0 0 0 0) = 3652059.
Proof. split; reflexivity. Qed.

(** ** The firewall controller *)

Section FirewallFacts.
Context {W : Type} (host : Host W).

(** The calls of [_block_with_iptables] always begin with the existence
    check, and the add-rule command runs only when the check fails. *)
Lemma block_with_iptables_rule_exists ip w w1 :
  os_system host (iptables_check_cmd ip) w = (Ok 0, w1) ->
  _block_with_iptables host ip w
  = IO true w1 [System (iptables_check_cmd ip); Log (Info_iptables_already ip)].
Proof. intros H. unfold _block_with_iptables. rewrite H. reflexivity. Qed.

Lemma add_rule_invocations_app ip tr1 tr2 :
  add_rule_invocations ip (tr1 ++ tr2)
  = (add_rule_invocations ip tr1 + add_rule_invocations ip tr2)%nat.
Proof.
  unfold add_rule_invocations. rewrite List.filter_app. apply length_app.
Qed.

Lemma block_with_iptables_rule_missing ip w w1 status :
  os_system host (iptables_check_cmd ip) w = (Ok status, w1) ->
  status <> 0 ->
  add_rule_invocations ip (io_trace (_block_with_iptables host ip w)) = 1%nat
  /\ io_world (_block_with_iptables host ip w)
     = (subprocess_run host (iptables_add_argv ip) w1).2.
Proof.
  intros H Hs. unfold _block_with_iptables. rewrite H.
  apply Z.eqb_neq in Hs. rewrite Hs.
  destruct (subprocess_run host (iptables_add_argv ip) w1) as [[result|e] w2];
    simpl; unfold add_rule_invocations; simpl;
    rewrite bool_decide_eq_true_2 by reflexivity; done.
Qed.

(** C9: in simulation mode [block_ip] returns True for every address and
    whatever backend was detected, runs no command and makes no system call,
    and leaves the host as it was; it only writes the [SIMULATION] log line. *)
Theorem simulation_block_has_no_effect (backend ip : string) (w : W) :
  let b := block_ip host {| simulation_mode := true; firewall_system := backend |} ip w in
  io_val b = true
  /\ external_calls (io_trace b) = []
  /\ io_world b = w
  /\ io_trace b = [Log (Info_simulation ip)].
Proof. repeat split. Qed.

(** C8: with the iptables backend, when the first call of [block_ip] finds
    no rule for the address and the second call finds one, the two calls
    together run the add-rule command exactly once: the second call makes
    the existence check and nothing else, and returns True. *)
Theorem iptables_block_twice_adds_once (ip : string) (w : W) (status : Z) :
  let fw := {| simulation_mode := false; firewall_system := "iptables" |} in
  let first := block_ip host fw ip w in
  let second := block_ip host fw ip (io_world first) in
  (os_system host (iptables_check_cmd ip) w).1 = Ok status ->
  status <> 0 ->
  (os_system host (iptables_check_cmd ip) (io_world first)).1 = Ok 0 ->
  add_rule_invocations ip (io_trace first ++ io_trace second) = 1%nat
  /\ io_val second = true
  /\ external_calls (io_trace second) = [System (iptables_check_cmd ip)].
Proof.
  intros fw first second Hfirst Hstatus Hsecond.
  assert (Hb : forall v, block_ip host fw ip v = _block_with_iptables host ip v)
    by reflexivity.
  subst first second. rewrite !Hb in *.
  destruct (os_system host (iptables_check_cmd ip) w) as [c1 w1] eqn:E1.
  simpl in Hfirst. subst c1.
  destruct (block_with_iptables_rule_missing ip w w1 status E1 Hstatus) as [Hadd Hw].
  set (w2 := io_world (_block_with_iptables host ip w)) in *.
  destruct (os_system host (iptables_check_cmd ip) w2) as [c2 w3] eqn:E2.
  simpl in Hsecond. subst c2.
  rewrite (block_with_iptables_rule_exists ip w2 w3 E2).
  rewrite add_rule_invocations_app, Hadd. repeat split.
Qed.

End FirewallFacts.

Lemma iptables_block_twice_adds_once_witness :
  add_rule_invocations Demo.attacker
    (io_trace (block_ip Demo.host Demo.iptables Demo.attacker [])
     ++ io_trace (block_ip Demo.host Demo.iptables Demo.attacker
                    (io_world (block_ip Demo.host Demo.iptables Demo.attacker []))))
  = 1%nat
  /\ io_val (block_ip Demo.host Demo.iptables Demo.attacker
               (io_world (block_ip Demo.host Demo.iptables Demo.attacker []))) = true
  /\ external_calls
       (io_trace (block_ip Demo.host Demo.iptables Demo.attacker
                    (io_world (block_ip Demo.host Demo.iptables Demo.attacker []))))
     = [System (iptables_check_cmd Demo.attacker)].
Proof.
  apply (iptables_block_twice_adds_once Demo.host Demo.attacker [] 256).
  - reflexivity.
  - lia.
  - reflexivity.
Defined.

(** ** The monitor: one call *)

Lemma with_failures_twice s ip a b :
  with_failures (with_failures s ip a) ip b = with_failures s ip b.
Proof. unfold with_failures; simpl. f_equal. apply insert_insert_eq. Qed.

Lemma with_failures_blocked_twice s ip a b :
  with_failures (with_blocked (with_failures s ip a) ip) ip b
  = with_failures (with_blocked s ip) ip b.
Proof. unfold with_failures, with_blocked; simpl. f_equal. apply insert_insert_eq. Qed.

Lemma failures_of_with_failures s ip l :
  failures_of (with_failures s ip l) ip = l.
Proof. unfold failures_of, with_failures; simpl. by rewrite lookup_insert_eq. Qed.

Lemma failures_of_with_failures_ne s ip ip' l :
  ip <> ip' -> failures_of (with_failures s ip l) ip' = failures_of s ip'.
Proof.
  intros Hne. unfold failures_of, with_failures; simpl.
  by rewrite lookup_insert_ne.
Qed.

Lemma sub_seconds_cutoff now time_window :
  cutoff_ok time_window now ->
  sub_seconds now time_window = Some (to_us now - time_window * US_PER_SECOND).
Proof.
  unfold cutoff_ok, sub_seconds, add_seconds. intros H.
  replace (to_us now + - time_window * US_PER_SECOND)
    with (to_us now - time_window * US_PER_SECOND) by lia.
  by rewrite H.
Qed.

Lemma sub_seconds_overflow now time_window :
  ~ cutoff_ok time_window now -> sub_seconds now time_window = None.
Proof.
  unfold cutoff_ok, sub_seconds, add_seconds. intros H.
  replace (to_us now + - time_window * US_PER_SECOND)
    with (to_us now - time_window * US_PER_SECOND) by lia.
  by destruct (representable _).
Qed.

Section MonitorFacts.
Context {W : Type} (host : Host W).

Implicit Types (s : SecurityMonitor) (w : W) (ip : string).

Lemma record_failure_whitelisted s w ip ts now :
  ip ∈ safe_ips s ->
  record_failure host ip ts now s w
  = Outcome (Ret ()) s w [Log (Debug_whitelisted ip)].
Proof. intros H. unfold record_failure. by rewrite decide_True. Qed.

Lemma record_failure_already_blocked s w ip ts now :
  ip ∉ safe_ips s -> ip ∈ blocked_ips s ->
  record_failure host ip ts now s w
  = Outcome (Ret ()) s w [Log (Debug_already_blocked ip)].
Proof.
  intros Hs Hb. unfold record_failure.
  rewrite decide_False by done. by rewrite decide_True.
Qed.

(** When [now - window] is no datetime the subtraction raises after the
    timestamp was appended, and nothing else is done. *)
Lemma record_failure_overflow s w ip ts now :
  ip ∉ safe_ips s -> ip ∉ blocked_ips s ->
  ~ cutoff_ok (time_window s) now ->
  record_failure host ip ts now s w
  = Outcome (Raise OverflowError)
            (with_failures s ip (failures_of s ip ++ [ts])) w [].
Proof.
  intros Hs Hb Hc. unfold record_failure.
  rewrite decide_False by done. rewrite decide_False by done.
  cbn [time_window with_failures]. by rewrite (sub_seconds_overflow _ _ Hc).
Qed.

(** Below the threshold the call only replaces the history of [ip]. *)
Lemma record_failure_quiet s w ip ts now :
  ip ∉ safe_ips s -> ip ∉ blocked_ips s ->
  cutoff_ok (time_window s) now ->
  Z.of_nat (length (prune (time_window s) (failures_of s ip) (ts, now)))
    < failure_threshold s ->
  record_failure host ip ts now s w
  = Outcome (Ret ())
            (with_failures s ip (prune (time_window s) (failures_of s ip) (ts, now)))
            w [].
Proof.
  intros Hs Hb Hc Hlt. unfold record_failure.
  rewrite decide_False by done. rewrite decide_False by done.
  cbn [time_window with_failures]. rewrite (sub_seconds_cutoff _ _ Hc).
  cbv zeta. rewrite !failures_of_with_failures, with_failures_twice.
  cbn [failure_threshold with_failures].
  unfold prune in Hlt; cbn [fst snd] in Hlt.
  destruct (Z.leb_spec (failure_threshold s)
              (Z.of_nat (length (newer_than (to_us now - time_window s * US_PER_SECOND)
                                            (failures_of s ip ++ [ts]))))); [lia|].
  reflexivity.
Qed.

(** At or above the threshold the decision is logged and, when a firewall is
    set, [block_ip] is called once; the address is marked as blocked and its
    history cleared only when that call returns True. *)
Lemma record_failure_decision s w ip ts now :
  ip ∉ safe_ips s -> ip ∉ blocked_ips s ->
  cutoff_ok (time_window s) now ->
  let kept := prune (time_window s) (failures_of s ip) (ts, now) in
  failure_threshold s <= Z.of_nat (length kept) ->
  record_failure host ip ts now s w
  = let warn := Log (Warning_threshold ip (length kept) (time_window s)) in
    match firewall s with
    | Some fw =>
        let b := block_ip host fw ip w in
        Outcome (Ret ())
                (if io_val b then with_failures (with_blocked s ip) ip []
                 else with_failures s ip kept)
                (io_world b) (warn :: io_trace b)
    | None => Outcome (Ret ()) (with_failures s ip kept) w [warn]
    end.
Proof.
  intros Hs Hb Hc kept Hge. unfold record_failure.
  rewrite decide_False by done. rewrite decide_False by done.
  cbn [time_window with_failures]. rewrite (sub_seconds_cutoff _ _ Hc).
  cbv zeta. rewrite !failures_of_with_failures, with_failures_twice.
  cbn [failure_threshold with_failures firewall].
  subst kept. unfold prune in *; cbn [fst snd] in *.
  destruct (Z.leb_spec (failure_threshold s)
              (Z.of_nat (length (newer_than (to_us now - time_window s * US_PER_SECOND)
                                            (failures_of s ip ++ [ts]))))); [|lia].
  destruct (firewall s) as [fw|]; [|reflexivity].
  destruct (io_val (block_ip host fw ip w)); [|reflexivity].
  by rewrite with_failures_blocked_twice.
Qed.

End MonitorFacts.

(** ** The monitor: what every call preserves *)

Section Invariants.
Context {W : Type} (host : Host W).

Implicit Types (s : SecurityMonitor) (w : W) (ip : string).

Lemma block_ip_no_decisions fw ip w :
  block_decisions (io_trace (block_ip host fw ip w)) = [].
Proof.
  unfold block_ip, _block_with_ufw, _block_with_iptables.
  repeat case_match; reflexivity.
Qed.

(** The shapes the monitor can have after a call. *)
Lemma record_failure_self s w ip ts now :
  let o := record_failure host ip ts now s w in
  self o = s
  \/ ((ip ∉ safe_ips s) /\ (ip ∉ blocked_ips s)
      /\ ((exists l, self o = with_failures s ip l)
          \/ self o = with_failures (with_blocked s ip) ip [])).
Proof.
  unfold record_failure. case_decide; [by left|]. case_decide; [by left|].
  right. split; [done|]. split; [done|].
  cbn [time_window with_failures].
  destruct (sub_seconds now (time_window s)) as [cutoff|]; [|simpl; eauto].
  cbv zeta. rewrite !failures_of_with_failures, !with_failures_twice.
  repeat case_match; simpl;
    rewrite ?with_failures_blocked_twice; eauto.
Qed.

(** The decisions of a call concern its own address, and there is none
    when the address is whitelisted or blocked. *)
Lemma record_failure_decisions s w ip ts now :
  let o := record_failure host ip ts now s w in
  block_decisions (trace o) = []
  \/ ((ip ∉ safe_ips s) /\ (ip ∉ blocked_ips s)
      /\ block_decisions (trace o) = [ip]).
Proof.
  unfold record_failure. case_decide; [by left|]. case_decide; [by left|].
  cbv zeta. repeat case_match; simpl; rewrite ?block_ip_no_decisions.
  all: first [by left | by right].
Qed.

Lemma invariant_init thr win safe :
  monitor_invariant thr win safe (SecurityMonitor_init thr win safe).
Proof.
  unfold monitor_invariant, SecurityMonitor_init; simpl.
  repeat split; set_solver.
Qed.

Lemma invariant_with_failures thr win safe s ip l :
  ip ∉ safe_ips s -> ip ∉ blocked_ips s ->
  monitor_invariant thr win safe s ->
  monitor_invariant thr win safe (with_failures s ip l).
Proof.
  intros Hs Hb (Ht & Hw & Hsafe & Hblk & Hwl).
  unfold monitor_invariant, with_failures; simpl.
  split; [done|]. split; [done|]. split; [done|]. split.
  - intros ip' Hin. destruct (Hblk ip' Hin) as [Hn Hl]. split; [done|].
    rewrite lookup_insert_ne; [done | congruence].
  - intros ip' H'. rewrite lookup_insert_ne; [by apply Hwl | congruence].
Qed.

Lemma invariant_blocked thr win safe s ip :
  ip ∉ safe_ips s ->
  monitor_invariant thr win safe s ->
  monitor_invariant thr win safe (with_failures (with_blocked s ip) ip []).
Proof.
  intros Hs (Ht & Hw & Hsafe & Hblk & Hwl).
  unfold monitor_invariant, with_failures, with_blocked; simpl.
  split; [done|]. split; [done|]. split; [done|]. split.
  - intros ip' [Hin|Hin]%elem_of_union.
    + apply elem_of_singleton in Hin as ->. split; [done|].
      apply lookup_insert_eq.
    + destruct (Hblk ip' Hin) as [Hn Hl]. split; [done|].
      destruct (decide (ip = ip')) as [->|Hne].
      * apply lookup_insert_eq.
      * by rewrite lookup_insert_ne.
  - intros ip' H'. rewrite lookup_insert_ne; [by apply Hwl | congruence].
Qed.

Lemma reachable_invariant thr win safe s :
  reachable host thr win safe s -> monitor_invariant thr win safe s.
Proof.
  induction 1 as [|s fw _ IH|s ip ts now w _ IH].
  - apply invariant_init.
  - exact IH.
  - destruct (record_failure_self s w ip ts now) as [->|(Hs & Hb & [[l ->]| ->])].
    + exact IH.
    + by apply invariant_with_failures.
    + by apply invariant_blocked.
Qed.

(** No call takes an address out of the blocked set. *)
Lemma record_failure_keeps_blocked s w ip ip' ts now :
  ip ∈ blocked_ips s ->
  ip ∈ blocked_ips (self (record_failure host ip' ts now s w)).
Proof.
  intros H.
  destruct (record_failure_self s w ip' ts now) as [->|(_ & _ & [[l ->]| ->])];
    simpl; set_solver.
Qed.

Lemma run_reachable thr win safe calls : forall s w o,
  reachable host thr win safe s ->
  o ∈ run host calls s w ->
  reachable host thr win safe (self o).
Proof.
  induction calls as [|c rest IH]; intros s w o Hr Ho; simpl in Ho.
  - by apply elem_of_nil in Ho.
  - apply elem_of_cons in Ho as [->|Ho]; [by constructor|].
    destruct (value _); [|by apply elem_of_nil in Ho].
    eapply IH; [|exact Ho]. by constructor.
Qed.

End Invariants.

(** ** Blocked and whitelisted addresses *)

Section Exemptions.
Context {W : Type} (host : Host W).

Implicit Types (s : SecurityMonitor) (w : W) (ip : string).

(** C3: once an address is in the blocked set of a monitor, its history is
    empty; a call of [record_failure] for it returns at the second guard and
    changes nothing; along every later sequence of calls, for whatever
    addresses, it stays in the blocked set with an empty history and no
    block decision is made for it again; [set_firewall], the only other
    operation, leaves the blocked set alone. *)
Theorem blocked_address_is_final thr win safe s ip :
  reachable host thr win safe s ->
  ip ∈ blocked_ips s ->
  failures_of s ip = []
  /\ (forall ts now w,
        record_failure host ip ts now s w
        = Outcome (Ret ()) s w [Log (Debug_already_blocked ip)])
  /\ (forall calls w o,
        o ∈ run host calls s w ->
        ip ∈ blocked_ips (self o)
        /\ failures_of (self o) ip = []
        /\ (ip ∉ block_decisions (trace o)))
  /\ (forall fw, ip ∈ blocked_ips (set_firewall fw s)).
Proof.
  intros Hr Hb.
  assert (Hempty : forall s', reachable host thr win safe s' ->
                     ip ∈ blocked_ips s' ->
                     (ip ∉ safe_ips s') /\ failures_of s' ip = []).
  { intros s' Hr' Hb'.
    destruct (reachable_invariant host _ _ _ _ Hr') as (_ & _ & _ & Hblk & _).
    destruct (Hblk ip Hb') as [Hn Hl]. split; [done|].
    unfold failures_of. by rewrite Hl. }
  destruct (Hempty s Hr Hb) as [Hns Hnil].
  split; [exact Hnil|]. split.
  { intros ts now w. by apply record_failure_already_blocked. }
  split; [|intros fw; exact Hb].
  intros calls. revert s Hr Hb Hns Hnil.
  induction calls as [|c rest IH]; intros s Hr Hb Hns Hnil w o Ho; simpl in Ho.
  { by apply elem_of_nil in Ho. }
  set (o1 := record_failure host (f_ip c) (f_timestamp c) (f_now c) s w) in *.
  assert (Hr1 : reachable host thr win safe (self o1)) by by constructor.
  assert (Hb1 : ip ∈ blocked_ips (self o1)) by by apply record_failure_keeps_blocked.
  destruct (Hempty _ Hr1 Hb1) as [Hns1 Hnil1].
  apply elem_of_cons in Ho as [->|Ho].
  - split; [done|]. split; [done|].
    destruct (record_failure_decisions host s w (f_ip c) (f_timestamp c) (f_now c))
      as [Hd|(_ & Hnb & Hd)]; fold o1 in Hd; rewrite Hd.
    + apply not_elem_of_nil.
    + intros ->%list_elem_of_singleton. done.
  - destruct (value o1); [|by apply elem_of_nil in Ho].
    by apply (IH (self o1) Hr1 Hb1 Hns1 Hnil1 (world o1)).
Qed.

(** C4: an address of the whitelist is never in the blocked set of a
    monitor and never has a history; a call of [record_failure] for it
    returns at the first guard and changes nothing; and this stays so along
    every sequence of calls, however many and for whatever addresses. *)
Theorem whitelisted_address_is_never_blocked thr win safe s ip :
  reachable host thr win safe s ->
  ip ∈ safe ->
  (ip ∉ blocked_ips s)
  /\ failures_by_ip s !! ip = None
  /\ (forall ts now w,
        record_failure host ip ts now s w
        = Outcome (Ret ()) s w [Log (Debug_whitelisted ip)])
  /\ (forall calls w o,
        o ∈ run host calls s w ->
        (ip ∉ blocked_ips (self o))
        /\ failures_by_ip (self o) !! ip = None
        /\ (ip ∉ block_decisions (trace o))).
Proof.
  intros Hr Hin.
  assert (Hfree : forall s', reachable host thr win safe s' ->
                    ip ∈ safe_ips s'
                    /\ (ip ∉ blocked_ips s')
                    /\ failures_by_ip s' !! ip = None).
  { intros s' Hr'.
    destruct (reachable_invariant host _ _ _ _ Hr') as (_ & _ & Hsafe & Hblk & Hwl).
    assert (Hs : ip ∈ safe_ips s') by (rewrite Hsafe; by apply elem_of_list_to_set).
    split; [done|]. split; [|by apply Hwl].
    intros Hb. by destruct (Hblk ip Hb). }
  destruct (Hfree s Hr) as (Hs & Hnb & Hnone).
  split; [done|]. split; [done|]. split.
  { intros ts now w. by apply record_failure_whitelisted. }
  intros calls w o Ho.
  destruct (Hfree (self o) (run_reachable host _ _ _ _ _ _ _ Hr Ho)) as (_ & Hnb' & Hnone').
  split; [done|]. split; [done|].
  clear Hnb' Hnone'. revert s w Hr Hs Hnb Hnone Ho.
  induction calls as [|c rest IH]; intros s w Hr Hs Hnb Hnone Ho; simpl in Ho.
  { by apply elem_of_nil in Ho. }
  set (o1 := record_failure host (f_ip c) (f_timestamp c) (f_now c) s w) in *.
  assert (Hr1 : reachable host thr win safe (self o1)) by by constructor.
  apply elem_of_cons in Ho as [->|Ho].
  - destruct (record_failure_decisions host s w (f_ip c) (f_timestamp c) (f_now c))
      as [Hd|(Hns & _ & Hd)]; fold o1 in Hd; rewrite Hd.
    + apply not_elem_of_nil.
    + intros ->%list_elem_of_singleton. done.
  - destruct (value o1); [|by apply elem_of_nil in Ho].
    destruct (Hfree _ Hr1) as (Hs1 & Hnb1 & Hnone1).
    by apply (IH (self o1) (world o1)).
Qed.

End Exemptions.

(** The state reached by one failure of the attacker with threshold 1 and a
    simulated firewall: the attacker is blocked. *)
Lemma demo_blocked_state_reachable :
  reachable Demo.host 1 60 []
    (self (record_failure Demo.host Demo.attacker (Demo.at_second 0) (Demo.at_second 0)
             (set_firewall Demo.simulated (SecurityMonitor_init 1 60 [])) [])).
Proof. repeat constructor. Defined.

Lemma blocked_address_is_final_witness :
  let s := self (record_failure Demo.host Demo.attacker
                   (Demo.at_second 0) (Demo.at_second 0)
                   (set_firewall Demo.simulated (SecurityMonitor_init 1 60 [])) []) in
  Demo.attacker ∈ blocked_ips s
  /\ failures_of s Demo.attacker = []
  /\ (forall ts now w,
        record_failure Demo.host Demo.attacker ts now s w
        = Outcome (Ret ()) s w [Log (Debug_already_blocked Demo.attacker)]).
Proof.
  intros s.
  assert (Hb : Demo.attacker ∈ blocked_ips s).
  { apply (bool_decide_unpack _). vm_compute. exact I. }
  split; [exact Hb|].
  destruct (blocked_address_is_final Demo.host 1 60 [] s Demo.attacker
              demo_blocked_state_reachable Hb) as (H1 & H2 & _).
  split; [exact H1 | exact H2].
Defined.

Lemma whitelisted_address_is_never_blocked_witness :
  let s := set_firewall Demo.simulated (SecurityMonitor_init 1 60 ["10.0.0.5"]) in
  let calls := [Failure "10.0.0.5" (Demo.at_second 0) (Demo.at_second 0);
                Failure Demo.attacker (Demo.at_second 1) (Demo.at_second 1);
                Failure "10.0.0.5" (Demo.at_second 2) (Demo.at_second 2);
                Failure "10.0.0.5" (Demo.at_second 3) (Demo.at_second 3)] in
  ("10.0.0.5" ∉ blocked_ips s)
  /\ failures_by_ip s !! "10.0.0.5" = None
  /\ record_failure Demo.host "10.0.0.5" (Demo.at_second 0) (Demo.at_second 0) s []
     = Outcome (Ret ()) s [] [Log (Debug_whitelisted "10.0.0.5")]
  /\ Forall (λ o, ("10.0.0.5" ∉ blocked_ips (self o))
                  /\ failures_by_ip (self o) !! "10.0.0.5" = None
                  /\ ("10.0.0.5" ∉ block_decisions (trace o)))
            (run Demo.host calls s [])
  /\ Demo.attacker ∈ blocked_ips (state_after s (run Demo.host calls s [])).
Proof.
  intros s calls.
  destruct (whitelisted_address_is_never_blocked Demo.host 1 60 ["10.0.0.5"] s "10.0.0.5")
    as (H1 & H2 & H3 & H4).
  - apply reach_set_firewall. apply reach_init.
  - apply (bool_decide_unpack _). vm_compute. exact I.
  - split; [exact H1|]. split; [exact H2|]. split; [apply H3|]. split.
    + apply Forall_forall. intros o Ho. exact (H4 calls [] o Ho).
    + apply (bool_decide_unpack _). vm_compute. exact I.
Defined.

(** ** Stale failures and failed blocks *)

Lemma newer_than_app cutoff h1 h2 :
  newer_than cutoff (h1 ++ h2) = newer_than cutoff h1 ++ newer_than cutoff h2.
Proof. apply filter_app. Qed.

(** A timestamp at or before the cutoff is dropped by the pruning that
    follows its own insertion. *)
Lemma stale_failure_is_pruned time_window h ts now :
  to_us ts <= to_us now - time_window * US_PER_SECOND ->
  prune time_window h (ts, now)
  = newer_than (to_us now - time_window * US_PER_SECOND) h.
Proof.
  intros Hstale. unfold prune; cbn [fst snd]. rewrite newer_than_app.
  unfold newer_than at 2. rewrite filter_cons_False by lia.
  rewrite filter_nil. apply app_nil_r.
Qed.

Section Recurrence.
Context {W : Type} (host : Host W).

Implicit Types (s : SecurityMonitor) (w : W) (ip : string).

(** Whatever the threshold, a stale failure recorded for an address without
    history leaves it without history: nothing is kept, and a block clears
    the history as well. *)
Lemma stale_failure_leaves_no_history s w ip ts now :
  ip ∉ safe_ips s ->
  ip ∉ blocked_ips s ->
  failures_of s ip = [] ->
  cutoff_ok (time_window s) now ->
  to_us ts <= to_us now - time_window s * US_PER_SECOND ->
  failures_of (self (record_failure host ip ts now s w)) ip = [].
Proof.
  intros Hs Hb Hfresh Hc Hstale.
  assert (Hkept : prune (time_window s) (failures_of s ip) (ts, now) = []).
  { rewrite stale_failure_is_pruned by done. by rewrite Hfresh. }
  destruct (Z.lt_ge_cases
              (Z.of_nat (length (prune (time_window s) (failures_of s ip) (ts, now))))
              (failure_threshold s)) as [Hlt|Hge].
  - rewrite record_failure_quiet by done. simpl.
    by rewrite failures_of_with_failures.
  - rewrite record_failure_decision by done. cbv zeta.
    destruct (firewall s) as [fw|]; simpl.
    + destruct (io_val (block_ip host fw ip w));
        by rewrite failures_of_with_failures.
    + by rewrite failures_of_with_failures.
Qed.

(** C10, as the code has it: a failure stamped at or before
    [now - window] is dropped by the pruning that follows its own append,
    so that it adds nothing to the count; recorded for an address that is
    neither whitelisted nor blocked and has no history, it leaves the
    history empty whatever the threshold; and with a threshold of at least
    one the call logs no decision, calls nothing and blocks nothing. *)
Theorem stale_failure_never_counts s w ip ts now :
  ip ∉ safe_ips s ->
  ip ∉ blocked_ips s ->
  failures_of s ip = [] ->
  cutoff_ok (time_window s) now ->
  to_us ts <= to_us now - time_window s * US_PER_SECOND ->
  let o := record_failure host ip ts now s w in
  prune (time_window s) (failures_of s ip) (ts, now) = []
  /\ failures_of (self o) ip = []
  /\ (0 < failure_threshold s ->
      o = Outcome (Ret ()) (with_failures s ip []) w []
      /\ blocked_ips (self o) = blocked_ips s
      /\ block_decisions (trace o) = []
      /\ external_calls (trace o) = []).
Proof.
  intros Hs Hb Hfresh Hc Hstale o.
  assert (Hkept : prune (time_window s) (failures_of s ip) (ts, now) = []).
  { rewrite stale_failure_is_pruned by done. by rewrite Hfresh. }
  split; [exact Hkept|].
  split; [by apply stale_failure_leaves_no_history|].
  intros Hthr.
  assert (Ho : o = Outcome (Ret ()) (with_failures s ip []) w []).
  { subst o. rewrite record_failure_quiet; try done.
    - by rewrite Hkept.
    - rewrite Hkept. simpl. lia. }
  rewrite Ho. done.
Qed.

(** C7: when the threshold is reached and [block_ip] returns False, the
    call has made that one attempt and no other, the blocked set is as
    before and the pruned history is kept; the next failure that again
    leaves the history at or above the threshold calls [block_ip] again. *)
Theorem failed_block_is_retried s w ip fw ts now ts2 now2 :
  ip ∉ safe_ips s ->
  ip ∉ blocked_ips s ->
  firewall s = Some fw ->
  cutoff_ok (time_window s) now ->
  cutoff_ok (time_window s) now2 ->
  let kept := prune (time_window s) (failures_of s ip) (ts, now) in
  let kept2 := prune (time_window s) kept (ts2, now2) in
  failure_threshold s <= Z.of_nat (length kept) ->
  io_val (block_ip host fw ip w) = false ->
  failure_threshold s <= Z.of_nat (length kept2) ->
  let o := record_failure host ip ts now s w in
  let o2 := record_failure host ip ts2 now2 (self o) (world o) in
  blocked_ips (self o) = blocked_ips s
  /\ failures_of (self o) ip = kept
  /\ trace o = Log (Warning_threshold ip (length kept) (time_window s))
               :: io_trace (block_ip host fw ip w)
  /\ trace o2 = Log (Warning_threshold ip (length kept2) (time_window s))
                :: io_trace (block_ip host fw ip (world o)).
Proof.
  intros Hs Hb Hfw Hc Hc2 kept kept2 Hge Hfail Hge2 o o2.
  assert (Ho : o = Outcome (Ret ()) (with_failures s ip kept)
                           (io_world (block_ip host fw ip w))
                           (Log (Warning_threshold ip (length kept) (time_window s))
                            :: io_trace (block_ip host fw ip w))).
  { subst o. rewrite record_failure_decision by done.
    cbv zeta. rewrite Hfw, Hfail. reflexivity. }
  subst o2. rewrite Ho. cbn [self world trace].
  split; [done|]. split; [apply failures_of_with_failures|]. split; [done|].
  rewrite record_failure_decision; cbn [with_failures safe_ips blocked_ips
    time_window failure_threshold firewall]; try done.
  - rewrite Hfw, failures_of_with_failures. cbv zeta. reflexivity.
  - by rewrite failures_of_with_failures.
Qed.

End Recurrence.

Lemma stale_failure_never_counts_witness :
  let s := set_firewall Demo.simulated (SecurityMonitor_init 1 60 []) in
  let o := record_failure Demo.host Demo.attacker
             (Demo.at_second 10) (Demo.at_second 70) s [] in
  failures_of (self o) Demo.attacker = []
  /\ o = Outcome (Ret ()) (with_failures s Demo.attacker []) [] []
  /\ blocked_ips (self o) = blocked_ips s
  /\ block_decisions (trace o) = []
  /\ external_calls (trace o) = [].
Proof.
  intros s o.
  destruct (stale_failure_never_counts Demo.host s [] Demo.attacker
              (Demo.at_second 10) (Demo.at_second 70)) as (_ & Hh & Hquiet).
  - apply (bool_decide_unpack _). vm_compute. exact I.
  - apply (bool_decide_unpack _). vm_compute. exact I.
  - reflexivity.
  - reflexivity.
  - vm_compute. discriminate.
  - split; [exact Hh|]. apply Hquiet. simpl. lia.
Defined.

(** C10 as it is worded does not hold for a threshold below one: with
    threshold 0 the stale failure of an address without history is a block
    decision, with a count of 0, and the address is blocked. *)
Lemma stale_failure_blocks_at_threshold_zero :
  let s := set_firewall Demo.simulated (SecurityMonitor_init 0 60 []) in
  let o := record_failure Demo.host Demo.attacker
             (Demo.at_second 10) (Demo.at_second 70) s [] in
  (Demo.attacker ∉ safe_ips s)
  /\ (Demo.attacker ∉ blocked_ips s)
  /\ failures_of s Demo.attacker = []
  /\ to_us (Demo.at_second 10)
     <= to_us (Demo.at_second 70) - time_window s * US_PER_SECOND
  /\ failures_of (self o) Demo.attacker = []
  /\ trace o = [Log (Warning_threshold Demo.attacker 0 60);
                Log (Info_simulation Demo.attacker)]
  /\ Demo.attacker ∈ blocked_ips (self o)
  /\ ~ (block_decisions (trace o) = [] /\ blocked_ips (self o) = blocked_ips s).
Proof.
  intros s o.
  split; [apply (bool_decide_unpack _); vm_compute; exact I|].
  split; [apply (bool_decide_unpack _); vm_compute; exact I|].
  split; [reflexivity|].
  split; [vm_compute; discriminate|].
  split; [reflexivity|].
  split; [reflexivity|].
  split; [apply (bool_decide_unpack _); vm_compute; exact I|].
  intros [H _]. vm_compute in H. discriminate H.
Qed.

Lemma failed_block_is_retried_witness :
  let fw := {| simulation_mode := false; firewall_system := "ufw" |} in
  let s := set_firewall fw (SecurityMonitor_init 1 60 []) in
  let o := record_failure Demo.host Demo.attacker
             (Demo.at_second 0) (Demo.at_second 0) s [] in
  let o2 := record_failure Demo.host Demo.attacker
              (Demo.at_second 10) (Demo.at_second 10) (self o) (world o) in
  blocked_ips (self o) = blocked_ips s
  /\ failures_of (self o) Demo.attacker = [Demo.at_second 0]
  /\ trace o = [Log (Warning_threshold Demo.attacker 1 60);
                Run (ufw_deny_argv Demo.attacker);
                Log (Error_ufw_exception Demo.attacker FileNotFoundError)]
  /\ trace o2 = [Log (Warning_threshold Demo.attacker 2 60);
                 Run (ufw_deny_argv Demo.attacker);
                 Log (Error_ufw_exception Demo.attacker FileNotFoundError)].
Proof.
  intros fw s.
  apply (failed_block_is_retried Demo.host s [] Demo.attacker fw
           (Demo.at_second 0) (Demo.at_second 0)
           (Demo.at_second 10) (Demo.at_second 10)).
  - apply (bool_decide_unpack _). vm_compute. exact I.
  - apply (bool_decide_unpack _). vm_compute. exact I.
  - reflexivity.
  - reflexivity.
  - reflexivity.
  - vm_compute. discriminate.
  - reflexivity.
  - vm_compute. discriminate.
Defined.

(** ** The first time the threshold is reached *)

Lemma retained_cons time_window h c rest :
  retained time_window h (c :: rest)
  = retained time_window (prune time_window h c) rest.
Proof. reflexivity. Qed.

Section FirstReach.
Context {W : Type} (host : Host W).

Implicit Types (s : SecurityMonitor) (w : W) (ip : string).
Implicit Types (calls : list (datetime * datetime)).

Lemma record_failure_safe_ips s w ip ts now :
  safe_ips (self (record_failure host ip ts now s w)) = safe_ips s.
Proof.
  destruct (record_failure_self host s w ip ts now) as [->|(_ & _ & [[l ->]| ->])];
    reflexivity.
Qed.

(** From a state in which the address is blocked, every call for it is the
    same no-op. *)
Lemma run_blocked ip calls : forall s w o,
  ip ∉ safe_ips s -> ip ∈ blocked_ips s ->
  o ∈ run host (failures_for ip calls) s w ->
  o = Outcome (Ret ()) s w [Log (Debug_already_blocked ip)].
Proof.
  induction calls as [|c rest IH]; intros s w o Hs Hb Ho; simpl in Ho.
  { by apply elem_of_nil in Ho. }
  rewrite record_failure_already_blocked in Ho by done. simpl in Ho.
  apply elem_of_cons in Ho as [->|Ho]; [done|]. by apply IH.
Qed.

Lemma run_blocked_epoch ip calls : forall s w i j oi oj,
  ip ∉ safe_ips s ->
  (i < j)%nat ->
  run host (failures_for ip calls) s w !! i = Some oi ->
  run host (failures_for ip calls) s w !! j = Some oj ->
  ip ∈ blocked_ips (self oi) ->
  trace oj = [Log (Debug_already_blocked ip)].
Proof.
  induction calls as [|c rest IH]; intros s w i j oi oj Hs Hij Hi Hj Hb;
    simpl in Hi, Hj.
  { by rewrite lookup_nil in Hi. }
  set (o := record_failure host ip c.1 c.2 s w) in *.
  assert (Hs' : ip ∉ safe_ips (self o))
    by (subst o; by rewrite record_failure_safe_ips).
  destruct j as [|j]; [lia|]. simpl in Hj.
  destruct (value o); [|by rewrite lookup_nil in Hj].
  destruct i as [|i]; simpl in Hi.
  - injection Hi as <-.
    apply list_elem_of_lookup_2 in Hj.
    by rewrite (run_blocked ip rest _ _ _ Hs' Hb Hj).
  - eapply (IH (self o) (world o) i j); eauto. lia.
Qed.




End FirstReach.

(** With a clock that does not run backwards, the retained timestamps are
    all the recorded ones that are strictly newer than [now - window]. *)
Lemma newer_than_cons cutoff x l :
  newer_than cutoff (x :: l)
  = if decide (cutoff < to_us x) then x :: newer_than cutoff l
    else newer_than cutoff l.
Proof. unfold newer_than. by rewrite filter_cons. Qed.

Lemma newer_than_newer_than c1 c2 l :
  c1 <= c2 -> newer_than c2 (newer_than c1 l) = newer_than c2 l.
Proof.
  intros Hle. induction l as [|x l IH]; [done|].
  rewrite !newer_than_cons.
  destruct (decide (c1 < to_us x)), (decide (c2 < to_us x)); try lia.
  - rewrite newer_than_cons, decide_True by done. by rewrite IH.
  - rewrite newer_than_cons, decide_False by done. exact IH.
  - exact IH.
Qed.

Lemma retained_snoc time_window h calls c :
  retained time_window h (calls ++ [c])
  = prune time_window (retained time_window h calls) c.
Proof. unfold retained. by rewrite fold_left_app. Qed.

Lemma retained_within_window time_window h calls now :
  Forall (λ c, to_us c.2 <= to_us now) calls ->
  newer_than (to_us now - time_window * US_PER_SECOND) (retained time_window h calls)
  = newer_than (to_us now - time_window * US_PER_SECOND) (h ++ calls.*1).
Proof.
  induction calls as [|d calls IH] using rev_ind; intros Hmono.
  { simpl. by rewrite app_nil_r. }
  apply Forall_app in Hmono as [Hmono Hd].
  rewrite Forall_singleton in Hd.
  rewrite retained_snoc. unfold prune.
  rewrite newer_than_newer_than by lia.
  rewrite fmap_app, app_assoc, !newer_than_app, IH by done.
  by rewrite newer_than_app.
Qed.

Lemma retained_is_window_count time_window h calls ts now :
  Forall (λ c, to_us c.2 <= to_us now) calls ->
  retained time_window h (calls ++ [(ts, now)])
  = newer_than (to_us now - time_window * US_PER_SECOND) (h ++ calls.*1 ++ [ts]).
Proof.
  intros Hmono. rewrite retained_snoc. unfold prune; cbn [fst snd].
  rewrite (app_assoc h), !(newer_than_app _ _ [ts]).
  by rewrite retained_within_window.
Qed.

Section BlockDecision.
Context {W : Type} (host : Host W).


End BlockDecision.


(** ** The window example of the specification *)

Section Eviction.
Context {W : Type} (host : Host W).

Ltac side_condition :=
  first [ apply (bool_decide_unpack _); vm_compute; exact I
        | vm_compute; reflexivity
        | vm_compute; discriminate ].

(** C2, as the code has it: with failures at 0 s, 10 s and 70 s, each
    recorded at its own time, and a window of 60 s, the cutoff of the third
    call is 10 s, so the entry of 10 s is evicted with the one of 0 s.
    With threshold 3 no call decides a block and after the third call the
    history is the entry of 70 s alone.  With threshold 2 the decision is
    made by the second call, at 10 s, when two entries are in the window;
    the third call decides nothing; after it the history is empty when
    that block succeeded, the address being blocked and the call a no-op,
    and is the entry of 70 s alone when the block failed. *)
Theorem eviction_example (fw : FirewallController) (w : W) :
  (exists o1 o2 o3,
      eviction_run host fw 3 w = [o1; o2; o3]
      /\ trace o1 = [] /\ trace o2 = [] /\ trace o3 = []
      /\ failures_of (self o3) Demo.attacker = [Demo.at_second 70]
      /\ blocked_ips (self o3) = ∅)
  /\ (exists o1 o2 o3,
      eviction_run host fw 2 w = [o1; o2; o3]
      /\ trace o1 = []
      /\ failures_of (self o1) Demo.attacker = [Demo.at_second 0]
      /\ trace o2 = Log (Warning_threshold Demo.attacker 2 60)
                    :: io_trace (block_ip host fw Demo.attacker w)
      /\ block_decisions (trace o2) = [Demo.attacker]
      /\ block_decisions (trace o3) = []
      /\ (Demo.at_second 10 ∉ failures_of (self o3) Demo.attacker)
      /\ failures_of (self o3) Demo.attacker
         = (if io_val (block_ip host fw Demo.attacker w) then []
            else [Demo.at_second 70])
      /\ blocked_ips (self o3)
         = (if io_val (block_ip host fw Demo.attacker w) then {[Demo.attacker]}
            else ∅)
      /\ trace o3
         = (if io_val (block_ip host fw Demo.attacker w)
            then [Log (Debug_already_blocked Demo.attacker)] else [])).
Proof.
  split.
  - unfold eviction_run, eviction_calls, failures_for.
    cbn [map fst snd run f_ip f_timestamp f_now].
    rewrite record_failure_quiet; [|side_condition..]. cbn [value self world].
    rewrite record_failure_quiet; [|side_condition..]. cbn [value self world].
    rewrite record_failure_quiet; [|side_condition..]. cbn [value self world].
    do 3 eexists. split; [reflexivity|]. cbn [trace self]. repeat split.
  - unfold eviction_run, eviction_calls, failures_for.
    cbn [map fst snd run f_ip f_timestamp f_now].
    rewrite record_failure_quiet; [|side_condition..]. cbn [value self world].
    rewrite record_failure_decision; [|side_condition..].
    cbv zeta. cbn [firewall with_failures eviction_monitor set_firewall].
    destruct (io_val (block_ip host fw Demo.attacker w)) eqn:Hblock;
      cbn [value self world].
    + rewrite record_failure_already_blocked; [|side_condition..].
      do 3 eexists. split; [reflexivity|]. cbn [trace self].
      split; [reflexivity|]. split; [reflexivity|]. split; [reflexivity|].
      split; [simpl; by rewrite block_ip_no_decisions|].
      split; [reflexivity|].
      rewrite failures_of_with_failures.
      split; [apply not_elem_of_nil|]. split; [reflexivity|].
      split; [|reflexivity].
      cbn [blocked_ips with_failures with_blocked eviction_monitor set_firewall
           SecurityMonitor_init]. apply (right_id_L ∅ (∪)).
    + rewrite record_failure_quiet; [|side_condition..].
      do 3 eexists. split; [reflexivity|]. cbn [trace self].
      split; [reflexivity|]. split; [reflexivity|]. split; [reflexivity|].
      split; [simpl; by rewrite block_ip_no_decisions|].
      split; [reflexivity|].
      rewrite failures_of_with_failures.
      split; [|repeat split].
      vm_compute. intros H. apply list_elem_of_singleton in H. discriminate.
Qed.

End Eviction.

(** C2 as the specification words it does not hold: after the call at 70 s
    the history is the entry of 70 s alone, not those of 10 s and 70 s, and
    with threshold 2 the block is decided by the second call, at 10 s, not
    by the third. *)
Lemma eviction_example_as_stated_fails :
  let after3 := state_after (eviction_monitor Demo.simulated 3)
                  (eviction_run Demo.host Demo.simulated 3 []) in
  let decisions n := (block_decisions ∘ trace)
                       <$> eviction_run Demo.host Demo.simulated n [] in
  failures_of after3 Demo.attacker = [Demo.at_second 70]
  /\ decisions 2 = [[]; [Demo.attacker]; []]
  /\ ~ (failures_of after3 Demo.attacker = [Demo.at_second 10; Demo.at_second 70]
        /\ decisions 3 = [[]; []; []]
        /\ decisions 2 = [[]; []; [Demo.attacker]]).
Proof.
  vm_compute. split; [reflexivity|]. split; [reflexivity|].
  intros (H & _). discriminate H.
Qed.

(** ** Year injection and rollover *)

Lemma years_text_ok : forallb year_text_ok (seqZ 1 9999) = true.
Proof. vm_compute. reflexivity. Qed.

Lemma year_text (y : Z) :
  1 <= y <= 9999 -> year_text_ok y = true.
Proof.
  intros Hy. pose proof years_text_ok as H.
  rewrite forallb_forall in H. apply H.
  apply list_elem_of_In, elem_of_seqZ. lia.
Qed.

Lemma span_digits_append (cs : list ascii) (rest : string) :
  forallb Strptime.is_digit cs = true ->
  Strptime.span_digits (string_of_list_ascii cs ++ String " " rest)%string
  = (map Strptime.digit_value cs, String " " rest).
Proof.
  induction cs as [|c cs IH]; intros Hd; simpl in *.
  - reflexivity.
  - apply andb_true_iff in Hd as [Hc Hcs]. rewrite Hc, (IH Hcs). reflexivity.
Qed.

(** %Y applied to f"{y} ..." reads [y] when it has four digits and fails
    otherwise. *)
Lemma field_Y_with_year (y : Z) (timestamp_str : string) :
  1 <= y <= 9999 ->
  Strptime.field_Y (with_year y timestamp_str)
  = if 1000 <=? y then Some (y, String " " timestamp_str) else None.
Proof.
  intros Hy. pose proof (year_text y Hy) as Hok.
  unfold year_text_ok in Hok.
  apply andb_true_iff in Hok as [Hok Hlen].
  apply andb_true_iff in Hok as [Hdig Hnum].
  apply Z.eqb_eq in Hnum. apply Bool.eqb_prop in Hlen.
  unfold Strptime.field_Y, with_year.
  rewrite <- (string_of_list_ascii_of_string (pretty y)).
  change (string_of_list_ascii (list_ascii_of_string (pretty y)) ++ " " ++ timestamp_str)%string
    with (string_of_list_ascii (list_ascii_of_string (pretty y)) ++ String " " timestamp_str)%string.
  rewrite span_digits_append by done.
  rewrite length_map, Hlen, Hnum. reflexivity.
Qed.

Lemma make_Ret y mo d h mi s us r :
  DT.make y mo d h mi s us = Ret r ->
  r = DT.mk y mo d h mi s us /\ valid r = true.
Proof.
  unfold DT.make. destruct (valid (DT.mk y mo d h mi s us)) eqn:Hv; [|discriminate].
  intros [= <-]. done.
Qed.

(** The year of an accepted syslog timestamp is the injected one. *)
Lemma strptime_auth_log_year (y : Z) (timestamp_str : string) (ts0 : datetime) :
  1 <= y <= 9999 ->
  strptime (with_year y timestamp_str) auth_log = Ret ts0 ->
  year ts0 = y /\ 1000 <= y /\ valid ts0 = true.
Proof.
  intros Hy. unfold strptime, Strptime.build, Strptime.match_auth_log.
  rewrite field_Y_with_year by done.
  destruct (Z.leb_spec 1000 y) as [Hge|Hlt]; [|simpl; discriminate].
  cbn [mbind option_bind].
  destruct (Strptime.spaces (String " " timestamp_str)) as [s2|]; [|simpl; discriminate].
  cbn [mbind option_bind].
  destruct (Strptime.field_b s2) as [[mo s3]|]; [|simpl; discriminate].
  cbn [mbind option_bind].
  destruct (Strptime.spaces s3) as [s4|]; [|simpl; discriminate].
  cbn [mbind option_bind].
  destruct (Strptime.field_d s4) as [[d s5]|]; [|simpl; discriminate].
  cbn [mbind option_bind].
  destruct (Strptime.spaces s5) as [s6|]; [|simpl; discriminate].
  cbn [mbind option_bind].
  destruct (Strptime.clock s6) as [[[h mi] sec]|]; [|simpl; discriminate].
  cbn [mbind option_bind].
  intros [-> Hv]%make_Ret. done.
Qed.

Lemma valid_bounds d :
  valid d = true ->
  1 <= year d <= 9999 /\ 1 <= month d <= 12
  /\ 1 <= day d <= days_in_month (year d) (month d)
  /\ 0 <= hour d <= 23 /\ 0 <= minute d <= 59 /\ 0 <= second d <= 59
  /\ 0 <= microsecond d <= 999999.
Proof.
  unfold valid, MINYEAR, MAXYEAR. rewrite !andb_true_iff, !Z.leb_le. lia.
Qed.

Lemma valid_intro d :
  1 <= year d <= 9999 -> 1 <= month d <= 12 ->
  1 <= day d <= days_in_month (year d) (month d) ->
  0 <= hour d <= 23 -> 0 <= minute d <= 59 -> 0 <= second d <= 59 ->
  0 <= microsecond d <= 999999 ->
  valid d = true.
Proof.
  unfold valid, MINYEAR, MAXYEAR. rewrite !andb_true_iff, !Z.leb_le. lia.
Qed.

Lemma days_before_year_bounds y :
  1 <= y <= 9999 -> 0 <= days_before_year y <= 3651694.
Proof.
  intros Hy. unfold days_before_year. cbv zeta.
  Z.to_euclidean_division_equations. lia.
Qed.

Lemma strptime_dec_31 y :
  1000 <= y <= 9999 ->
  strptime (with_year y "Dec 31 23:59:59") auth_log = Ret (DT.mk y 12 31 23 59 59 0).
Proof.
  intros Hy. unfold strptime, Strptime.build, Strptime.match_auth_log.
  rewrite field_Y_with_year by lia.
  destruct (Z.leb_spec 1000 y); [|lia].
  change (DT.make y 12 31 23 59 59 0 = Ret (DT.mk y 12 31 23 59 59 0)).
  unfold DT.make. rewrite valid_intro; [reflexivity | simpl; unfold days_in_month; simpl; lia ..].
Qed.

Lemma to_us_jan_1 d :
  valid d = true -> month d = 1 -> day d = 1 ->
  days_before_year (year d) * US_PER_DAY <= to_us d
  < (days_before_year (year d) + 1) * US_PER_DAY.
Proof.
  intros (Hy & _ & _ & Hh & Hm & Hs & Hu)%valid_bounds Hmo Hd.
  unfold to_us, toordinal, US_PER_DAY, US_PER_SECOND. rewrite Hmo, Hd.
  change (days_before_month (year d) 1) with 0. lia.
Qed.

Lemma to_us_dec_31 y :
  (days_before_year y + 364) * US_PER_DAY <= to_us (DT.mk y 12 31 23 59 59 0).
Proof.
  unfold to_us, toordinal, days_before_month, US_PER_DAY, US_PER_SECOND. cbn [year month day hour minute second microsecond].
  destruct (_ && _); lia.
Qed.

(** December 31st read on January 1st of the next year. *)
Lemma parse_dec_31 now_year now_cmp :
  1000 <= year now_year <= 9999 ->
  valid now_cmp = true ->
  year now_cmp = year now_year ->
  month now_cmp = 1 -> day now_cmp = 1 ->
  parse_timestamp auth_log "Dec 31 23:59:59" now_year now_cmp
  = Ret (DT.mk (year now_year - 1) 12 31 23 59 59 0).
Proof.
  intros Hy Hv Hsame Hmo Hd. unfold parse_timestamp.
  rewrite strptime_dec_31 by done.
  pose proof (to_us_jan_1 now_cmp Hv Hmo Hd) as Hjan.
  pose proof (to_us_dec_31 (year now_year)) as Hdec.
  pose proof (days_before_year_bounds (year now_year) ltac:(lia)) as Hb.
  rewrite Hsame in Hjan.
  unfold add_days, add_seconds, representable, MIN_US, MAX_US.
  unfold US_PER_DAY, US_PER_SECOND in *.
  destruct (Z.leb_spec 0 (to_us now_cmp + 1 * 86400 * 1000000)); [|lia].
  destruct (Z.leb_spec (to_us now_cmp + 1 * 86400 * 1000000) (3652059 * (86400 * 1000000) - 1)); [|lia].
  cbn [andb].
  destruct (Z.ltb_spec (to_us now_cmp + 1 * 86400 * 1000000) (to_us (DT.mk (year now_year) 12 31 23 59 59 0))); [|lia].
  unfold replace_year, DT.make. cbn [year month day hour minute second microsecond].
  rewrite valid_intro; [reflexivity | simpl; unfold days_in_month; simpl; lia ..].
Qed.

(** C5, as the code has it: the year read from the clock is the year of the
    parsed syslog timestamp; a timestamp at most one day ahead of the clock
    is returned as parsed; one more than a day ahead is returned with the
    previous year, provided its day exists in that month of the previous
    year.  In particular "Dec 31 23:59:59" read on January 1st of a year
    of four digits is December 31st of the year before. *)
Theorem year_rollover :
  (forall (now_year now_cmp : datetime) (timestamp_str : string)
          (ts0 : datetime) (limit : Z),
      1 <= year now_year <= 9999 ->
      strptime (with_year (year now_year) timestamp_str) auth_log = Ret ts0 ->
      add_days now_cmp 1 = Some limit ->
      year ts0 = year now_year
      /\ (to_us ts0 <= limit ->
          parse_timestamp auth_log timestamp_str now_year now_cmp = Ret ts0)
      /\ (limit < to_us ts0 ->
          day ts0 <= days_in_month (year now_year - 1) (month ts0) ->
          parse_timestamp auth_log timestamp_str now_year now_cmp
          = Ret (DT.mk (year now_year - 1) (month ts0) (day ts0)
                       (hour ts0) (minute ts0) (second ts0) (microsecond ts0))))
  /\ (forall now_year now_cmp : datetime,
      1000 <= year now_year <= 9999 ->
      valid now_cmp = true ->
      year now_cmp = year now_year ->
      month now_cmp = 1 ->
      day now_cmp = 1 ->
      parse_timestamp auth_log "Dec 31 23:59:59" now_year now_cmp
      = Ret (DT.mk (year now_year - 1) 12 31 23 59 59 0)).
Proof.
  split; [|exact parse_dec_31].
  intros now_year now_cmp timestamp_str ts0 limit Hy Hstr Hadd.
  destruct (strptime_auth_log_year _ _ _ Hy Hstr) as (Hyear & Hge & Hvalid).
  split; [exact Hyear|].
  unfold parse_timestamp. rewrite Hstr, Hadd. split.
  - intros Hle. by destruct (Z.ltb_spec limit (to_us ts0)); [lia|].
  - intros Hlt Hday. destruct (Z.ltb_spec limit (to_us ts0)); [|lia].
    apply valid_bounds in Hvalid as (_ & Hmo & Hd & Hh & Hmi & Hs & Hus).
    unfold replace_year, DT.make.
    rewrite valid_intro; [reflexivity | simpl; lia ..].
Qed.

Lemma year_rollover_witness :
  parse_timestamp auth_log "Mar 15 21:34:56"
    (DT.mk 2024 3 10 12 0 0 0) (DT.mk 2024 3 10 12 0 0 1)
  = Ret (DT.mk 2023 3 15 21 34 56 0)
  /\ parse_timestamp auth_log "Dec 31 23:59:59"
       (DT.mk 2025 1 1 0 0 0 250000) (DT.mk 2025 1 1 0 0 0 250007)
     = Ret (DT.mk 2024 12 31 23 59 59 0).
Proof.
  destruct year_rollover as [Hrule Hdec]. split.
  - destruct (Hrule (DT.mk 2024 3 10 12 0 0 0) (DT.mk 2024 3 10 12 0 0 1)
                "Mar 15 21:34:56" (DT.mk 2024 3 15 21 34 56 0)
                63845755200000001) as (_ & _ & Hback).
    + simpl. lia.
    + vm_compute. reflexivity.
    + vm_compute. reflexivity.
    + apply Hback; [vm_compute; reflexivity | vm_compute; discriminate].
  - apply (Hdec (DT.mk 2025 1 1 0 0 0 250000) (DT.mk 2025 1 1 0 0 0 250007)).
    + simpl. lia.
    + reflexivity.
    + reflexivity.
    + reflexivity.
    + reflexivity.
Defined.

(** C5 as the specification words it does not hold for February 29th: read
    on February 27th of a leap year it is more than a day ahead, the
    previous year has no such day, [replace] raises ValueError and the line
    yields the warning of an unparseable timestamp instead of a failure
    dated one year back. *)
Lemma year_rollover_as_stated_fails :
  let now := DT.mk 2024 2 27 12 0 0 0 in
  let ts0 := DT.mk 2024 2 29 13 0 0 0 in
  strptime (with_year (year now) "Feb 29 13:00:00") auth_log = Ret ts0
  /\ (exists limit, add_days now 1 = Some limit /\ limit < to_us ts0)
  /\ parse_timestamp auth_log "Feb 29 13:00:00" now now = Raise ValueError
  /\ ~ (exists ts, parse_timestamp auth_log "Feb 29 13:00:00" now now = Ret ts
                  /\ year ts = year now - 1)
  /\ (forall s : SecurityMonitor,
        let o := _process_log_entry Demo.host
                   (fun _ _ => Some ("Feb 29 13:00:00", "Failed password", Demo.attacker))
                   "Feb 29 13:00:00 host sshd[1]: Failed password for root from 203.0.113.7"
                   auth_log now now now (SSHLogParser_init s) [] in
        trace o = [Log (Warning_bad_timestamp "Feb 29 13:00:00")]
        /\ security_monitor (self o) = s).
Proof.
  intros now ts0.
  assert (Hparse : parse_timestamp auth_log "Feb 29 13:00:00" now now = Raise ValueError)
    by (vm_compute; reflexivity).
  split; [vm_compute; reflexivity|].
  split; [eexists; split; [vm_compute; reflexivity | vm_compute; reflexivity]|].
  split; [exact Hparse|].
  split.
  - intros (ts & Hts & _). rewrite Hparse in Hts. discriminate.
  - intros s o. subst o. unfold _process_log_entry. rewrite Hparse. done.
Qed.

(** ** Start-up *)

Section Startup.
Context {W : Type} (host : Host W).

Lemma try_journalctl_raises w tr e :
  io_val (try_journalctl host w tr) = Raise e ->
  (e = SystemExit 1 /\ Log Error_no_log_source ∈ io_trace (try_journalctl host w tr))
  \/ e = HostExn OtherException.
Proof.
  unfold try_journalctl.
  destruct (subprocess_run host journalctl_version_argv w) as [[cp|[]] w1]; simpl.
  - destruct (returncode cp =? 0); simpl; [discriminate|].
    intros [= <-]. left. split; [done|]. set_solver.
  - intros [= <-]. left. split; [done|]. set_solver.
  - intros [= <-]. left. split; [done|]. set_solver.
  - intros [= <-]. by right.
Qed.

Lemma determine_log_source_raises p w e :
  io_val (determine_log_source host p w) = Raise e ->
  (e = SystemExit 1 /\ Log Error_no_log_source ∈ io_trace (determine_log_source host p w))
  \/ e = HostExn OtherException.
Proof.
  unfold determine_log_source.
  destruct (os_path_exists host (auth_log_path p) w) as [[] w1].
  - destruct (os_access_R_OK host (auth_log_path p) w1) as [[] w2]; simpl.
    + discriminate.
    + apply try_journalctl_raises.
  - apply try_journalctl_raises.
Qed.

(** The log source is chosen from the path alone. *)
Lemma determine_log_source_monitor p m w :
  determine_log_source host (with_is_active (with_security_monitor p m) true) w
  = determine_log_source host (with_is_active p true) w.
Proof. reflexivity. Qed.

(** C6, as the code has it: neither the constructor nor [start_monitoring]
    checks the threshold or the window.  The constructor stores whatever it
    is given; [start_monitoring] does the same with any monitor in place of
    the parser's: same result, same host, same trace, same activity flag
    and thread, and the monitor is left as it is.  The only exceptions it
    raises are SystemExit(1), after the error that no log source is
    usable, and what the host raises; when it returns on an idle parser,
    monitoring is active and the thread started. *)
Theorem start_checks_no_configuration (p : SSHLogParser) (m : SecurityMonitor)
    (w : W) (failure_threshold0 time_window0 : Z) (safe : list string) :
  let o := start_monitoring host (with_security_monitor p m) w in
  let o0 := start_monitoring host p w in
  failure_threshold (SecurityMonitor_init failure_threshold0 time_window0 safe)
  = failure_threshold0
  /\ time_window (SecurityMonitor_init failure_threshold0 time_window0 safe)
     = time_window0
  /\ value o = value o0 /\ world o = world o0 /\ trace o = trace o0
  /\ is_active (self o) = is_active (self o0)
  /\ monitor_thread (self o) = monitor_thread (self o0)
  /\ security_monitor (self o) = m
  /\ (forall e, value o = Raise e ->
        (e = SystemExit 1 /\ Log Error_no_log_source ∈ trace o)
        \/ e = HostExn OtherException)
  /\ (is_active p = false -> value o = Ret () ->
      is_active (self o) = true
      /\ exists src, monitor_thread (self o) = Some (thread_target src)
                     /\ ThreadStart (thread_target src) ∈ trace o).
Proof.
  intros o o0. split; [done|]. split; [done|].
  subst o o0. unfold start_monitoring.
  cbn [is_active with_security_monitor].
  destruct (is_active p) eqn:Hact.
  { simpl. repeat split; try done. }
  rewrite determine_log_source_monitor.
  pose proof (determine_log_source_raises (with_is_active p true) w) as Hraise.
  destruct (io_val (determine_log_source host (with_is_active p true) w))
    as [src|e'] eqn:Hsrc; simpl.
  - repeat split; try done.
    exists src. split; [done|]. set_solver.
  - repeat split; try done.
    intros e [= <-]. by apply Hraise.
Qed.

End Startup.

Lemma start_checks_no_configuration_witness :
  let m := set_firewall Demo.simulated (SecurityMonitor_init 0 (-5) []) in
  let o := start_monitoring Demo.host (SSHLogParser_init m) [] in
  value o = Ret ()
  /\ is_active (self o) = true
  /\ security_monitor (self o) = m
  /\ exists src, monitor_thread (self o) = Some (thread_target src)
                 /\ ThreadStart (thread_target src) ∈ trace o.
Proof.
  intros m o.
  destruct (start_checks_no_configuration Demo.host
              (SSHLogParser_init (SecurityMonitor_init 5 60 [])) m [] 0 (-5) [])
    as (_ & _ & _ & _ & _ & _ & _ & Hm & _ & Hrun).
  destruct Hrun as [Hact Hthread]; [reflexivity | reflexivity |].
  split; [reflexivity|]. split; [exact Hact|]. split; [exact Hm | exact Hthread].
Defined.

(** C6 as the specification words it does not hold: started with threshold
    0 and window -5, on a host with a readable auth.log, the main block
    raises nothing, the monitor holds these values and the monitoring
    thread is started. *)
Lemma nonpositive_configuration_is_accepted :
  let args := {| threshold := 0; window := -5; whitelist := []; simulate := true |} in
  let o := main_start Demo.host args [] in
  value o = Ret ()
  /\ (exists p, self o = Some p
                /\ is_active p = true
                /\ monitor_thread p = Some "_monitor_auth_log"
                /\ failure_threshold (security_monitor p) = 0
                /\ time_window (security_monitor p) = -5)
  /\ ThreadStart "_monitor_auth_log" ∈ trace o.
Proof.
  intros args o. split; [reflexivity|]. split.
  - eexists. repeat split.
  - vm_compute. set_solver.
Qed.

(** * Further properties of the script *)

(** ** Detection of the firewall and the commands of a block *)

Section FirewallMore.
Context {W : Type} (host : Host W).

(** X1: [_detect_available_firewall] answers "ufw", "iptables" or "none"; it
    answers "ufw" exactly when [ufw status] exits with 0 and prints
    'Status: active', and then iptables is not probed; in every other case
    both probes run, in this order. *)
Theorem detect_firewall_priority (w : W) (sys : string) :
  io_val (_detect_available_firewall host w) = Ret sys ->
  (sys = "ufw" \/ sys = "iptables" \/ sys = "none")
  /\ (sys = "ufw" <->
      exists cp, (subprocess_run host ufw_status_argv w).1 = Ok cp
                 /\ returncode cp = 0
                 /\ str_in "Status: active" (stdout cp) = true)
  /\ external_calls (io_trace (_detect_available_firewall host w))
     = if String.eqb sys "ufw" then [Run ufw_status_argv]
       else [Run ufw_status_argv; Run iptables_version_argv].
Proof.
  unfold _detect_available_firewall, detect_iptables.
  destruct (subprocess_run host ufw_status_argv w) as [[cp|e] w1] eqn:Hufw;
    cbn [fst].
  - destruct (returncode cp =? 0) eqn:Hrc; cbn [andb].
    + destruct (str_in "Status: active" (stdout cp)) eqn:Hact.
      * simpl. intros [= <-]. split; [by left|]. split; [|reflexivity].
        split; [|done]. intros _. exists cp. apply Z.eqb_eq in Hrc. done.
      * destruct (subprocess_run host iptables_version_argv w1) as [[cp2|[]] w2];
          [destruct (returncode cp2 =? 0)|..]; simpl; intros [= <-];
          (split; [auto|]; split; [|reflexivity]);
          (split; [discriminate|]); intros (cp' & [= <-] & _ & Hs); congruence.
    + apply Z.eqb_neq in Hrc.
      destruct (subprocess_run host iptables_version_argv w1) as [[cp2|[]] w2];
        [destruct (returncode cp2 =? 0)|..]; simpl; intros [= <-];
        (split; [auto|]; split; [|reflexivity]);
        (split; [discriminate|]); intros (cp' & [= <-] & Hz & _); congruence.
  - destruct e; [| |simpl; discriminate].
    all: destruct (subprocess_run host iptables_version_argv w1) as [[cp2|[]] w2];
        [destruct (returncode cp2 =? 0)|..]; simpl; intros [= <-];
        (split; [auto|]; split; [|reflexivity]);
        (split; [discriminate|]); intros (cp' & Hcp & _); discriminate.
Qed.

(** X2: Whatever the controller and the address, [block_ip] makes one of four
    sequences of external calls, all of them about this address: none, the
    ufw deny, the iptables check, or the check followed by the add.  It
    makes none, leaves the host alone and, outside simulation mode, answers
    False when the backend is neither "ufw" nor "iptables". *)
Theorem block_ip_footprint (fw : FirewallController) (ip : string) (w : W) :
  let b := block_ip host fw ip w in
  (external_calls (io_trace b) = []
   \/ external_calls (io_trace b) = [Run (ufw_deny_argv ip)]
   \/ external_calls (io_trace b) = [System (iptables_check_cmd ip)]
   \/ external_calls (io_trace b)
      = [System (iptables_check_cmd ip); Run (iptables_add_argv ip)])
  /\ (simulation_mode fw = false ->
      firewall_system fw <> "ufw" ->
      firewall_system fw <> "iptables" ->
      io_val b = false /\ external_calls (io_trace b) = [] /\ io_world b = w).
Proof.
  intros b. subst b. unfold block_ip. split.
  - destruct (simulation_mode fw); [by left|].
    destruct (String.eqb (firewall_system fw) "ufw").
    { unfold _block_with_ufw.
      destruct (subprocess_run host (ufw_deny_argv ip) w) as [[cp|e] w1]; simpl; auto. }
    destruct (String.eqb (firewall_system fw) "iptables"); [|by left].
    unfold _block_with_iptables.
    destruct (os_system host (iptables_check_cmd ip) w) as [[st|e] w1]; simpl; auto.
    destruct (st =? 0); simpl; auto.
    destruct (subprocess_run host (iptables_add_argv ip) w1) as [[cp|e] w2];
      simpl; auto.
  - intros -> Hu Hi.
    apply String.eqb_neq in Hu, Hi. rewrite Hu, Hi. done.
Qed.

(** X3: The ufw backend has no existence check: two calls of [block_ip] for one
    address run the deny command twice, whatever the first call returned;
    and a call answers True exactly when its command exited with 0. *)
Theorem ufw_block_twice_denies_twice (ip : string) (w : W) :
  let fw := {| simulation_mode := false; firewall_system := "ufw" |} in
  let first := block_ip host fw ip w in
  let second := block_ip host fw ip (io_world first) in
  external_calls (io_trace first ++ io_trace second)
  = [Run (ufw_deny_argv ip); Run (ufw_deny_argv ip)]
  /\ (io_val first = true <->
      exists cp, (subprocess_run host (ufw_deny_argv ip) w).1 = Ok cp
                 /\ returncode cp = 0).
Proof.
  intros fw first second. subst first second fw.
  change (block_ip host {| simulation_mode := false; firewall_system := "ufw" |} ip)
    with (_block_with_ufw host ip).
  unfold _block_with_ufw.
  destruct (subprocess_run host (ufw_deny_argv ip) w) as [[cp|e] w1]; cbn [io_world fst].
  - destruct (subprocess_run host (ufw_deny_argv ip) w1) as [[cp2|e2] w2];
      (split; [reflexivity|]); cbn [io_val]; rewrite Z.eqb_eq;
      (split; [intros H; by exists cp | intros (cp' & [= <-] & H); exact H]).
  - destruct (subprocess_run host (ufw_deny_argv ip) w1) as [[cp2|e2] w2];
      (split; [reflexivity|]); cbn [io_val];
      (split; [discriminate | intros (cp' & Hcp & _); discriminate]).
Qed.

(** X4: On a host where a successful existence check and a successful add both
    mean that the rule for the address is in place, a True from [block_ip]
    with the iptables backend means that the rule is in place afterwards. *)
Theorem iptables_block_true_means_rule (present : W -> string -> Prop)
    (ip : string) (w : W) :
  let fw := {| simulation_mode := false; firewall_system := "iptables" |} in
  (forall w1, os_system host (iptables_check_cmd ip) w = (Ok 0, w1) ->
              present w1 ip) ->
  (forall status w1 cp w2,
      os_system host (iptables_check_cmd ip) w = (Ok status, w1) ->
      subprocess_run host (iptables_add_argv ip) w1 = (Ok cp, w2) ->
      returncode cp = 0 -> present w2 ip) ->
  io_val (block_ip host fw ip w) = true ->
  present (io_world (block_ip host fw ip w)) ip.
Proof.
  intros fw Hcheck Hadd. subst fw.
  change (block_ip host {| simulation_mode := false; firewall_system := "iptables" |} ip w)
    with (_block_with_iptables host ip w).
  unfold _block_with_iptables.
  destruct (os_system host (iptables_check_cmd ip) w) as [[st|e] w1] eqn:Hc;
    [|simpl; discriminate].
  destruct (Z.eqb_spec st 0) as [->|Hne].
  - simpl. intros _. by apply Hcheck.
  - destruct (subprocess_run host (iptables_add_argv ip) w1) as [[cp|e] w2] eqn:Ha;
      simpl; [|discriminate].
    intros Hz%Z.eqb_eq. by eapply Hadd.
Qed.

End FirewallMore.

Lemma detect_firewall_priority_witness :
  io_val (_detect_available_firewall Demo.host []) = Ret "iptables"
  /\ external_calls (io_trace (_detect_available_firewall Demo.host []))
     = [Run ufw_status_argv; Run iptables_version_argv].
Proof.
  split; [reflexivity|].
  destruct (detect_firewall_priority Demo.host [] "iptables") as (_ & _ & H).
  - reflexivity.
  - exact H.
Defined.

Lemma block_ip_footprint_witness :
  let b := block_ip Demo.host
             {| simulation_mode := false; firewall_system := "none" |}
             Demo.attacker [] in
  io_val b = false /\ external_calls (io_trace b) = [] /\ io_world b = [].
Proof.
  apply (block_ip_footprint Demo.host); [reflexivity | discriminate | discriminate].
Defined.

Lemma iptables_block_true_means_rule_witness :
  Demo.attacker ∈ io_world (block_ip Demo.host Demo.iptables Demo.attacker []).
Proof.
  apply (iptables_block_true_means_rule Demo.host (λ w ip, ip ∈ w) Demo.attacker []).
  - intros w1 H. vm_compute in H. discriminate H.
  - intros status w1 cp w2 H1 H2 _.
    vm_compute in H1. injection H1 as <- <-.
    vm_compute in H2. injection H2 as <- <-.
    apply list_elem_of_singleton. reflexivity.
  - reflexivity.
Defined.

(** ** What a call of record_failure touches and keeps *)

Section MonitorMore.
Context {W : Type} (host : Host W).

Implicit Types (s : SecurityMonitor) (w : W) (ip : string).

(** X5: A call for one address leaves the threshold, the window, the whitelist
    and the firewall as they are, does not touch the history of any other
    address, adds at most this address to the blocked set, and raises
    nothing but the OverflowError of the cutoff. *)
Theorem record_failure_frame s w ip ts now :
  let o := record_failure host ip ts now s w in
  failure_threshold (self o) = failure_threshold s
  /\ time_window (self o) = time_window s
  /\ safe_ips (self o) = safe_ips s
  /\ firewall (self o) = firewall s
  /\ (forall ip', ip' <> ip ->
        failures_by_ip (self o) !! ip' = failures_by_ip s !! ip')
  /\ (blocked_ips (self o) = blocked_ips s
      \/ blocked_ips (self o) = {[ip]} ∪ blocked_ips s)
  /\ (forall e, value o = Raise e ->
        e = OverflowError /\ ~ cutoff_ok (time_window s) now).
Proof.
  intros o.
  assert (Hshape := record_failure_self host s w ip ts now). fold o in Hshape.
  assert (Hframe :
    failure_threshold (self o) = failure_threshold s
    /\ time_window (self o) = time_window s
    /\ safe_ips (self o) = safe_ips s
    /\ firewall (self o) = firewall s
    /\ (forall ip', ip' <> ip ->
          failures_by_ip (self o) !! ip' = failures_by_ip s !! ip')
    /\ (blocked_ips (self o) = blocked_ips s
        \/ blocked_ips (self o) = {[ip]} ∪ blocked_ips s)).
  { destruct Hshape as [->|(_ & _ & [[l ->]| ->])]; simpl.
    - repeat split; auto.
    - repeat split; auto. intros ip' Hne. by rewrite lookup_insert_ne.
    - repeat split; auto. intros ip' Hne. by rewrite lookup_insert_ne. }
  destruct Hframe as (H1 & H2 & H3 & H4 & H5 & H6).
  repeat (split; [assumption|]).
  intros e. subst o. unfold record_failure.
  case_decide; [simpl; discriminate|]. case_decide; [simpl; discriminate|].
  cbn [time_window with_failures].
  assert (Hdec : cutoff_ok (time_window s) now \/ ~ cutoff_ok (time_window s) now)
    by (unfold cutoff_ok; destruct (representable _); [by left | by right]).
  destruct Hdec as [Hc|Hc].
  - rewrite (sub_seconds_cutoff _ _ Hc). cbv zeta.
    repeat case_match; simpl; discriminate.
  - rewrite (sub_seconds_overflow _ _ Hc). simpl. intros [= <-]. done.
Qed.

(** X6: After a call that went past the two guards and computed its cutoff,
    every timestamp kept for the address is strictly newer than the
    cutoff, comes from the old history or is the new timestamp, in the old
    order, and the history has grown by one entry at most. *)
Theorem history_within_window s w ip ts now :
  ip ∉ safe_ips s ->
  ip ∉ blocked_ips s ->
  cutoff_ok (time_window s) now ->
  let o := record_failure host ip ts now s w in
  Forall (λ t, to_us now - time_window s * US_PER_SECOND < to_us t)
         (failures_of (self o) ip)
  /\ failures_of (self o) ip `sublist_of` failures_of s ip ++ [ts]
  /\ (length (failures_of (self o) ip) <= S (length (failures_of s ip)))%nat.
Proof.
  intros Hs Hb Hc o.
  set (kept := prune (time_window s) (failures_of s ip) (ts, now)).
  assert (Hkept : Forall (λ t, to_us now - time_window s * US_PER_SECOND < to_us t) kept
                  /\ kept `sublist_of` failures_of s ip ++ [ts]).
  { subst kept. unfold prune, newer_than; cbn [fst snd]. split.
    - apply Forall_forall. intros t Ht. by apply list_elem_of_filter in Ht as [Ht _].
    - apply sublist_filter. }
  assert (Hcases : failures_of (self o) ip = kept \/ failures_of (self o) ip = []).
  { subst o.
    destruct (Z.lt_ge_cases (Z.of_nat (length kept)) (failure_threshold s)) as [Hlt|Hge].
    - rewrite record_failure_quiet by done. simpl.
      left. apply failures_of_with_failures.
    - rewrite record_failure_decision by done. cbv zeta.
      destruct (firewall s) as [fw|]; simpl.
      + destruct (io_val (block_ip host fw ip w)); rewrite failures_of_with_failures; auto.
      + left. apply failures_of_with_failures. }
  destruct Hkept as [Hnew Hsub].
  destruct Hcases as [-> | ->].
  - split; [done|]. split; [done|].
    apply sublist_length in Hsub. rewrite length_app in Hsub. simpl in Hsub. lia.
  - split; [constructor|]. split; [apply sublist_nil_l|]. simpl. lia.
Qed.

(** X9: With a threshold of zero or less every call that passes the guards,
    made when [now - window] is a datetime, is a block decision, whatever
    the timestamp. *)
Theorem nonpositive_threshold_always_decides s w ip ts now :
  ip ∉ safe_ips s ->
  ip ∉ blocked_ips s ->
  cutoff_ok (time_window s) now ->
  failure_threshold s <= 0 ->
  let o := record_failure host ip ts now s w in
  block_decisions (trace o) = [ip]
  /\ (forall fw, firewall s = Some fw -> io_val (block_ip host fw ip w) = true ->
        ip ∈ blocked_ips (self o)).
Proof.
  intros Hs Hb Hc Hthr o. subst o.
  rewrite record_failure_decision by (try done; lia). cbv zeta.
  destruct (firewall s) as [fw|]; simpl.
  - rewrite block_ip_no_decisions. split; [done|].
    intros fw' [= <-] Hok. rewrite Hok. simpl. set_solver.
  - split; [done|]. discriminate.
Qed.

Lemma record_failure_keeps_bound s w ip ts now fw :
  firewall s = Some fw ->
  simulation_mode fw = true ->
  cutoff_ok (time_window s) now ->
  history_bounded s ->
  let o := record_failure host ip ts now s w in
  history_bounded (self o) /\ value o = Ret () /\ firewall (self o) = Some fw.
Proof.
  intros Hfw Hsim Hc Hbound o.
  assert (Hother : forall l ip', ip' <> ip ->
            failures_of (with_failures s ip l) ip' = failures_of s ip').
  { intros l ip' Hne. by apply failures_of_with_failures_ne. }
  subst o.
  destruct (decide (ip ∈ safe_ips s)) as [Hs|Hs].
  { by rewrite record_failure_whitelisted. }
  destruct (decide (ip ∈ blocked_ips s)) as [Hb|Hb].
  { by rewrite record_failure_already_blocked. }
  set (kept := prune (time_window s) (failures_of s ip) (ts, now)).
  destruct (Z.lt_ge_cases (Z.of_nat (length kept)) (failure_threshold s)) as [Hlt|Hge].
  - rewrite record_failure_quiet by done. simpl. split; [|done].
    intros ip'. destruct (decide (ip' = ip)) as [->|Hne].
    + rewrite failures_of_with_failures. by right.
    + rewrite Hother by done. apply Hbound.
  - rewrite record_failure_decision by done. cbv zeta. rewrite Hfw.
    assert (Hok : io_val (block_ip host fw ip w) = true)
      by (unfold block_ip; by rewrite Hsim).
    rewrite Hok. simpl. split; [|done].
    intros ip'. destruct (decide (ip' = ip)) as [->|Hne].
    + left. unfold failures_of; simpl. by rewrite lookup_insert_eq.
    + unfold failures_of; simpl. rewrite lookup_insert_ne by done. apply Hbound.
Qed.

(** X7: With a firewall in simulation mode, whose blocks always succeed, every
    history stays empty or shorter than the threshold along any sequence of
    calls whose cutoffs are datetimes, and no call raises. *)
Theorem history_stays_bounded (calls : list failure) : forall s w fw o,
  firewall s = Some fw ->
  simulation_mode fw = true ->
  history_bounded s ->
  Forall (λ c, cutoff_ok (time_window s) (f_now c)) calls ->
  o ∈ run host calls s w ->
  history_bounded (self o) /\ value o = Ret ().
Proof.
  induction calls as [|c rest IH]; intros s w fw o Hfw Hsim Hbound Hok Ho;
    simpl in Ho.
  { by apply elem_of_nil in Ho. }
  apply Forall_cons in Hok as [Hc Hok].
  destruct (record_failure_keeps_bound s w (f_ip c) (f_timestamp c) (f_now c) fw
              Hfw Hsim Hc Hbound) as (Hb1 & Hv1 & Hfw1).
  apply elem_of_cons in Ho as [->|Ho]; [done|].
  rewrite Hv1 in Ho.
  eapply (IH _ _ fw o Hfw1 Hsim Hb1); [|exact Ho].
  destruct (record_failure_frame s w (f_ip c) (f_timestamp c) (f_now c))
    as (_ & Hwin & _).
  by rewrite Hwin.
Qed.

End MonitorMore.

(** ** The history as a sliding window *)

Section Window.
Context {W : Type} (host : Host W).

Implicit Types (s : SecurityMonitor) (w : W) (ip : string).
Implicit Types (calls : list (datetime * datetime)).

(** As long as no call has decided a block, the history of the address is
    what the successive prunings retain. *)
Lemma run_no_decision_history ip calls : forall s w n o,
  ip ∉ safe_ips s -> ip ∉ blocked_ips s ->
  Forall (λ c, cutoff_ok (time_window s) c.2) calls ->
  (forall i oi, (i <= n)%nat ->
     run host (failures_for ip calls) s w !! i = Some oi ->
     block_decisions (trace oi) = []) ->
  run host (failures_for ip calls) s w !! n = Some o ->
  failures_of (self o) ip
  = retained (time_window s) (failures_of s ip) (take (S n) calls)
  /\ blocked_ips (self o) = blocked_ips s
  /\ world o = w.
Proof.
  induction calls as [|c rest IH]; intros s w n o Hs Hb Hok Hquiet Hn.
  { simpl in Hn. by rewrite lookup_nil in Hn. }
  apply Forall_cons in Hok as [Hc Hok].
  assert (Hp : prune (time_window s) (failures_of s ip) c
               = prune (time_window s) (failures_of s ip) (c.1, c.2))
    by by destruct c.
  assert (Hlt : Z.of_nat (length (prune (time_window s) (failures_of s ip) (c.1, c.2)))
                < failure_threshold s).
  { destruct (Z.lt_ge_cases
                (Z.of_nat (length (prune (time_window s) (failures_of s ip) (c.1, c.2))))
                (failure_threshold s)) as [Hlt|Hge]; [done|].
    specialize (Hquiet 0%nat (record_failure host ip c.1 c.2 s w) ltac:(lia) eq_refl).
    rewrite record_failure_decision in Hquiet by done. cbv zeta in Hquiet.
    destruct (firewall s); simpl in Hquiet; discriminate. }
  simpl in Hn, Hquiet. rewrite record_failure_quiet in Hn, Hquiet by done.
  cbn [value self world] in Hn, Hquiet.
  destruct n as [|n]; simpl in Hn.
  - injection Hn as <-. simpl. rewrite failures_of_with_failures, Hp. done.
  - set (s1 := with_failures s ip
                 (prune (time_window s) (failures_of s ip) (c.1, c.2))) in *.
    destruct (IH s1 w n o) as (Hh & Hbl & Hw); try done.
    { intros i oi Hi Hoi. apply (Hquiet (S i) oi); [lia | exact Hoi]. }
    split; [|done]. rewrite Hh. subst s1.
    rewrite failures_of_with_failures. cbn [time_window with_failures].
    simpl. by rewrite Hp.
Qed.

(** X8: While no block has been decided and the clock has not run backwards,
    the history of an address after a call is exactly the list of all the
    timestamps recorded for it so far, the old history first, that are
    strictly newer than [now - window], in the order of their recording. *)
Theorem history_is_the_window s w ip pre ts now post :
  ip ∉ safe_ips s ->
  ip ∉ blocked_ips s ->
  Forall (λ c, cutoff_ok (time_window s) c.2) (pre ++ (ts, now) :: post) ->
  Forall (λ c, to_us c.2 <= to_us now) pre ->
  (forall i oi, (i <= length pre)%nat ->
     run host (failures_for ip (pre ++ (ts, now) :: post)) s w !! i = Some oi ->
     block_decisions (trace oi) = []) ->
  exists o,
    run host (failures_for ip (pre ++ (ts, now) :: post)) s w !! length pre = Some o
    /\ failures_of (self o) ip
       = newer_than (to_us now - time_window s * US_PER_SECOND)
                    (failures_of s ip ++ pre.*1 ++ [ts]).
Proof.
  intros Hs Hb Hok Hclock Hquiet.
  destruct (run host (failures_for ip (pre ++ (ts, now) :: post)) s w !! length pre)
    as [o|] eqn:Ho.
  - exists o. split; [done|].
    destruct (run_no_decision_history ip _ s w (length pre) o Hs Hb Hok Hquiet Ho)
      as (Hh & _ & _).
    rewrite Hh.
    replace (take (S (length pre)) (pre ++ (ts, now) :: post))
      with (pre ++ [(ts, now)]).
    + by apply retained_is_window_count.
    + replace (S (length pre)) with (length pre + 1)%nat by lia.
      by rewrite take_app_add.
  - exfalso.
    assert (Hfirst : forall calls s0 w0 n,
      ip ∉ safe_ips s0 -> ip ∉ blocked_ips s0 ->
      Forall (λ c, cutoff_ok (time_window s0) c.2) calls ->
      (n < length calls)%nat ->
      (forall i oi, (i <= n)%nat ->
         run host (failures_for ip calls) s0 w0 !! i = Some oi ->
         block_decisions (trace oi) = []) ->
      is_Some (run host (failures_for ip calls) s0 w0 !! n)).
    { induction calls as [|c rest IHc]; intros s0 w0 n Hs0 Hb0 Hok0 Hlen Hq; simpl in Hlen.
      - lia.
      - destruct n as [|n]; [simpl; eauto|].
        apply Forall_cons in Hok0 as [Hc0 Hok0].
        assert (Hfr := record_failure_frame host s0 w0 ip c.1 c.2).
        destruct Hfr as (_ & Hwin & Hsafe & _ & _ & _ & Hraise).
        destruct (run_no_decision_history ip (c :: rest) s0 w0 0%nat
                    (record_failure host ip c.1 c.2 s0 w0))
          as (_ & Hbl & Hw0); try done.
        { by constructor. }
        { intros i oi Hi. apply Hq. lia. }
        simpl. simpl in Hq.
        destruct (value (record_failure host ip c.1 c.2 s0 w0)) eqn:Hv.
        + apply IHc.
          * by rewrite Hsafe.
          * by rewrite Hbl.
          * by rewrite Hwin.
          * lia.
          * intros i oi Hi Hoi. apply (Hq (S i) oi); [lia | exact Hoi].
        + destruct (Hraise e eq_refl) as [_ Hno]. done. }
    destruct (Hfirst (pre ++ (ts, now) :: post) s w (length pre) Hs Hb Hok) as [o' Ho'].
    + rewrite length_app. simpl. lia.
    + exact Hquiet.
    + congruence.
Qed.

End Window.

Section DisabledWindow.
Context {W : Type} (host : Host W).

(** X10: With a window of zero seconds or less and a threshold of at least one,
    an address whose failures are never stamped after the clock reading of
    their call, each call made when [now - window] is a datetime, is never
    blocked: every call leaves its history empty, decides nothing and
    calls nothing. *)
Theorem nonpositive_window_never_blocks (ip : string)
    (calls : list (datetime * datetime)) : forall (s : SecurityMonitor) (w : W) o,
  ip ∉ safe_ips s ->
  ip ∉ blocked_ips s ->
  failures_of s ip = [] ->
  time_window s <= 0 ->
  0 < failure_threshold s ->
  Forall (λ c, cutoff_ok (time_window s) c.2 /\ to_us c.1 <= to_us c.2) calls ->
  o ∈ run host (failures_for ip calls) s w ->
  trace o = []
  /\ failures_of (self o) ip = []
  /\ blocked_ips (self o) = blocked_ips s.
Proof.
  induction calls as [|c rest IH]; intros s w o Hs Hb Hfresh Hwin Hthr Hok Ho;
    simpl in Ho.
  { by apply elem_of_nil in Ho. }
  apply Forall_cons in Hok as [[Hc Hpast] Hok].
  assert (Hkept : prune (time_window s) (failures_of s ip) (c.1, c.2) = []).
  { rewrite stale_failure_is_pruned, Hfresh; [done|].
    unfold US_PER_SECOND. nia. }
  rewrite record_failure_quiet in Ho by (try done; rewrite Hkept; simpl; lia).
  rewrite Hkept in Ho. cbn [value self world] in Ho.
  apply elem_of_cons in Ho as [->|Ho].
  - simpl. by rewrite failures_of_with_failures.
  - destruct (IH (with_failures s ip []) w o) as (Ht & Hh & Hbl); try done.
    by rewrite failures_of_with_failures.
Qed.

End DisabledWindow.

Lemma record_failure_frame_witness :
  let s := with_failures (set_firewall Demo.simulated (SecurityMonitor_init 1 60 []))
             "198.51.100.2" [Demo.at_second 0] in
  let o := record_failure Demo.host Demo.attacker
             (Demo.at_second 5) (Demo.at_second 5) s [] in
  failures_by_ip (self o) !! "198.51.100.2" = Some [Demo.at_second 0]
  /\ blocked_ips (self o) = {[Demo.attacker]} ∪ blocked_ips s.
Proof.
  intros s o.
  destruct (record_failure_frame Demo.host s [] Demo.attacker
              (Demo.at_second 5) (Demo.at_second 5))
    as (_ & _ & _ & _ & Hother & _ & _).
  split.
  - fold o in Hother. rewrite Hother by discriminate. reflexivity.
  - reflexivity.
Defined.

Lemma history_within_window_witness :
  let s := with_failures (set_firewall Demo.simulated (SecurityMonitor_init 5 60 []))
             Demo.attacker [Demo.at_second 0; Demo.at_second 30] in
  let o := record_failure Demo.host Demo.attacker
             (Demo.at_second 70) (Demo.at_second 70) s [] in
  Forall (λ t, to_us (Demo.at_second 70) - time_window s * US_PER_SECOND < to_us t)
         (failures_of (self o) Demo.attacker)
  /\ failures_of (self o) Demo.attacker
     `sublist_of` failures_of s Demo.attacker ++ [Demo.at_second 70]
  /\ (length (failures_of (self o) Demo.attacker)
      <= S (length (failures_of s Demo.attacker)))%nat.
Proof.
  intros s.
  refine (history_within_window Demo.host s [] Demo.attacker
            (Demo.at_second 70) (Demo.at_second 70) _ _ _).
  - apply (bool_decide_unpack _). vm_compute. exact I.
  - apply (bool_decide_unpack _). vm_compute. exact I.
  - reflexivity.
Defined.

Lemma nonpositive_threshold_always_decides_witness :
  let s := set_firewall Demo.simulated (SecurityMonitor_init 0 60 []) in
  let o := record_failure Demo.host Demo.attacker
             (Demo.at_second 0) (Demo.at_second 100) s [] in
  block_decisions (trace o) = [Demo.attacker]
  /\ Demo.attacker ∈ blocked_ips (self o).
Proof.
  intros s o.
  destruct (nonpositive_threshold_always_decides Demo.host s [] Demo.attacker
              (Demo.at_second 0) (Demo.at_second 100)) as [Hd Hb].
  - apply (bool_decide_unpack _). vm_compute. exact I.
  - apply (bool_decide_unpack _). vm_compute. exact I.
  - reflexivity.
  - simpl. lia.
  - split; [exact Hd|]. apply (Hb Demo.simulated); reflexivity.
Defined.

Lemma history_stays_bounded_witness :
  let s := set_firewall Demo.simulated (SecurityMonitor_init 2 60 []) in
  let calls := [Failure Demo.attacker (Demo.at_second 0) (Demo.at_second 0);
                Failure "198.51.100.2" (Demo.at_second 5) (Demo.at_second 5);
                Failure Demo.attacker (Demo.at_second 10) (Demo.at_second 10)] in
  Forall (λ o, history_bounded (self o) /\ value o = Ret ())
         (run Demo.host calls s []).
Proof.
  intros s calls. apply Forall_forall. intros o Ho.
  apply (history_stays_bounded Demo.host calls s [] Demo.simulated o).
  - reflexivity.
  - reflexivity.
  - intros ip. left. reflexivity.
  - repeat constructor.
  - exact Ho.
Defined.

Lemma history_is_the_window_witness :
  let s := set_firewall Demo.simulated (SecurityMonitor_init 3 60 []) in
  exists o,
    run Demo.host
        (failures_for Demo.attacker
           ([(Demo.at_second 0, Demo.at_second 0)]
            ++ (Demo.at_second 70, Demo.at_second 70) :: []))
        s [] !! 1%nat = Some o
    /\ failures_of (self o) Demo.attacker = [Demo.at_second 70].
Proof.
  intros s.
  destruct (history_is_the_window Demo.host s [] Demo.attacker
              [(Demo.at_second 0, Demo.at_second 0)]
              (Demo.at_second 70) (Demo.at_second 70) [])
    as (o & Ho & Hh).
  - apply (bool_decide_unpack _). vm_compute. exact I.
  - apply (bool_decide_unpack _). vm_compute. exact I.
  - repeat constructor.
  - repeat constructor. vm_compute. discriminate.
  - intros [|[|i]] oi Hi Hoi; [| |simpl in Hi; lia].
    + vm_compute in Hoi. injection Hoi as <-. reflexivity.
    + vm_compute in Hoi. injection Hoi as <-. reflexivity.
  - exists o. split; [exact Ho|]. rewrite Hh. reflexivity.
Defined.

Lemma nonpositive_window_never_blocks_witness :
  let s := set_firewall Demo.simulated (SecurityMonitor_init 1 0 []) in
  let calls := [(Demo.at_second 0, Demo.at_second 0);
                (Demo.at_second 1, Demo.at_second 1)] in
  Forall (λ o, trace o = []
               /\ failures_of (self o) Demo.attacker = []
               /\ blocked_ips (self o) = blocked_ips s)
         (run Demo.host (failures_for Demo.attacker calls) s []).
Proof.
  intros s calls. apply Forall_forall. intros o Ho.
  apply (nonpositive_window_never_blocks Demo.host Demo.attacker calls s [] o).
  - apply (bool_decide_unpack _). vm_compute. exact I.
  - apply (bool_decide_unpack _). vm_compute. exact I.
  - reflexivity.
  - simpl. lia.
  - simpl. lia.
  - repeat constructor; vm_compute; discriminate.
  - exact Ho.
Defined.

(** ** What the parser hands to the monitor *)

Lemma days_before_year_succ y :
  days_before_year (y + 1) = days_before_year y + 365 + (if is_leap y then 1 else 0).
Proof.
  unfold days_before_year, is_leap. cbv zeta.
  replace (y + 1 - 1) with y by lia.
  destruct (Z.eqb_spec (y mod 4) 0), (Z.eqb_spec (y mod 100) 0), (Z.eqb_spec (y mod 400) 0);
    cbn [andb orb negb]; Z.to_euclidean_division_equations; lia.
Qed.

Lemma days_before_year_mono y y' :
  y <= y' -> days_before_year y <= days_before_year y'.
Proof.
  intros H. unfold days_before_year. cbv zeta.
  Z.to_euclidean_division_equations. lia.
Qed.

Lemma day_of_year_bound d :
  valid d = true ->
  1 <= days_before_month (year d) (month d) + day d
    <= 365 + (if is_leap (year d) then 1 else 0).
Proof.
  intros (_ & Hm & Hd & _)%valid_bounds.
  unfold days_before_month, days_in_month in *.
  assert (Hcases : month d = 1 \/ month d = 2 \/ month d = 3 \/ month d = 4
                   \/ month d = 5 \/ month d = 6 \/ month d = 7 \/ month d = 8
                   \/ month d = 9 \/ month d = 10 \/ month d = 11 \/ month d = 12) by lia.
  destruct (is_leap (year d));
    repeat (destruct Hcases as [Hc|Hcases]; [rewrite Hc in *; simpl in *; lia|]);
    rewrite Hcases in *; simpl in *; lia.
Qed.

(** A valid datetime lies within its year on the time line. *)
Lemma to_us_within_year d :
  valid d = true ->
  days_before_year (year d) * US_PER_DAY <= to_us d
  < days_before_year (year d + 1) * US_PER_DAY.
Proof.
  intros Hv. pose proof (day_of_year_bound d Hv) as Hdoy.
  apply valid_bounds in Hv as (_ & _ & _ & Hh & Hmi & Hs & Hus).
  rewrite days_before_year_succ.
  unfold to_us, toordinal, US_PER_DAY, US_PER_SECOND.
  destruct (is_leap (year d)); lia.
Qed.




(** X12: A syslog timestamp goes to the monitor at most one day ahead of the
    clock, when the clock has not gone back a year between its two
    readings. *)
Theorem parsed_timestamp_not_ahead (timestamp_str : string)
    (now_year now_cmp ts : datetime) :
  1 <= year now_year <= 9999 ->
  valid now_cmp = true ->
  year now_year <= year now_cmp ->
  parse_timestamp auth_log timestamp_str now_year now_cmp = Ret ts ->
  to_us ts <= to_us now_cmp + US_PER_DAY.
Proof.
  intros Hy Hv Hle. unfold parse_timestamp.
  destruct (strptime (with_year (year now_year) timestamp_str) auth_log)
    as [ts0|e] eqn:Hstr; [|discriminate].
  destruct (strptime_auth_log_year _ _ _ Hy Hstr) as (Hyear & Hge & Hv0).
  unfold add_days, add_seconds.
  destruct (representable _); [|discriminate].
  destruct (Z.ltb_spec (to_us now_cmp + 1 * 86400 * US_PER_SECOND) (to_us ts0))
    as [Hlt|Hnlt].
  - unfold replace_year. intros [-> Hvts]%make_Ret.
    pose proof (to_us_within_year _ Hvts) as [_ Hup].
    pose proof (to_us_within_year _ Hv) as [Hlow _].
    cbn [year] in Hup.
    replace (year now_year - 1 + 1) with (year now_year) in Hup by lia.
    pose proof (days_before_year_mono _ _ Hle) as Hmono.
    unfold US_PER_DAY, US_PER_SECOND in *. lia.
  - intros [= <-]. unfold US_PER_DAY, US_PER_SECOND in *. lia.
Qed.


Lemma parsed_timestamp_not_ahead_witness :
  to_us (DT.mk 2023 12 31 23 59 59 0)
  <= to_us (DT.mk 2024 1 1 0 0 5 17) + US_PER_DAY.
Proof.
  apply (parsed_timestamp_not_ahead "Dec 31 23:59:59"
           (DT.mk 2024 1 1 0 0 5 0) (DT.mk 2024 1 1 0 0 5 17)).
  - simpl. lia.
  - reflexivity.
  - simpl. lia.
  - vm_compute. reflexivity.
Defined.

(** ** The log source and the start of monitoring *)

Section StartMore.
Context {W : Type} (host : Host W).

(** X13: [determine_log_source] answers auth_log exactly when the path exists and
    is readable, and then journalctl is not run; [os.access] is not called
    for a path that does not exist; journald is answered only after
    [journalctl --version] was run as the last call. *)
Theorem log_source_priority (p : SSHLogParser) (w : W) :
  let r := determine_log_source host p w in
  let e := os_path_exists host (auth_log_path p) w in
  let a := os_access_R_OK host (auth_log_path p) e.2 in
  (io_val r = Ret auth_log <-> e.1 = true /\ a.1 = true)
  /\ (io_val r = Ret auth_log ->
      external_calls (io_trace r)
      = [PathExists (auth_log_path p); Access (auth_log_path p)])
  /\ (e.1 = false ->
      external_calls (io_trace r)
      = [PathExists (auth_log_path p); Run journalctl_version_argv])
  /\ (io_val r = Ret journald ->
      last (external_calls (io_trace r)) = Some (Run journalctl_version_argv)).
Proof.
  intros r e a. subst r e a. unfold determine_log_source, try_journalctl.
  destruct (os_path_exists host (auth_log_path p) w) as [[] w1]; cbn [fst snd].
  - destruct (os_access_R_OK host (auth_log_path p) w1) as [[] w2]; cbn [fst snd].
    + simpl. repeat split; auto; discriminate.
    + destruct (subprocess_run host journalctl_version_argv w2) as [[cp|[]] w3];
        [destruct (returncode cp =? 0)|..]; simpl;
        (split; [split; [discriminate | intros [_ ?]; discriminate]|]);
        repeat split; try discriminate; auto.
  - destruct (subprocess_run host journalctl_version_argv w1) as [[cp|[]] w3];
      [destruct (returncode cp =? 0)|..]; simpl;
      (split; [split; [discriminate | intros [? _]; discriminate]|]);
      repeat split; try discriminate; auto.
Qed.

(** X14: Whatever the first call of [start_monitoring] on an idle parser did,
    returned or raised, it leaves the parser marked as active, so that a
    second call is refused with the warning alone: it probes nothing and
    starts nothing.  The two calls start one thread when the first returned
    and none when it raised. *)
Theorem start_twice_starts_once (p : SSHLogParser) (w : W) :
  is_active p = false ->
  let o1 := start_monitoring host p w in
  let o2 := start_monitoring host (self o1) (world o1) in
  is_active (self o1) = true
  /\ o2 = Outcome (Ret ()) (self o1) (world o1) [Log Warning_already_running]
  /\ thread_starts (trace o1 ++ trace o2)
     = match value o1 with Ret _ => 1%nat | Raise _ => 0%nat end.
Proof.
  intros Hidle o1 o2.
  assert (Hnone : forall q v, thread_starts (io_trace (determine_log_source host q v)) = 0%nat).
  { intros q v. unfold determine_log_source, try_journalctl.
    destruct (os_path_exists host (auth_log_path q) v) as [[] v1].
    - destruct (os_access_R_OK host (auth_log_path q) v1) as [[] v2]; [done|].
      destruct (subprocess_run host journalctl_version_argv v2) as [[cp|[]] v3];
        [destruct (returncode cp =? 0)|..]; reflexivity.
    - destruct (subprocess_run host journalctl_version_argv v1) as [[cp|[]] v3];
        [destruct (returncode cp =? 0)|..]; reflexivity. }
  assert (Hact : is_active (self o1) = true).
  { subst o1. unfold start_monitoring. rewrite Hidle.
    destruct (io_val (determine_log_source host (with_is_active p true) w)); reflexivity. }
  split; [exact Hact|].
  assert (Ho2 : o2 = Outcome (Ret ()) (self o1) (world o1) [Log Warning_already_running]).
  { subst o2. unfold start_monitoring at 1. by rewrite Hact. }
  split; [exact Ho2|]. rewrite Ho2. cbn [trace].
  subst o1. unfold start_monitoring. rewrite Hidle.
  specialize (Hnone (with_is_active p true) w).
  destruct (io_val (determine_log_source host (with_is_active p true) w));
    cbn [trace value]; unfold thread_starts in *;
    rewrite ?List.filter_app, ?length_app, Hnone; reflexivity.
Qed.

End StartMore.

Section EntryMore.
Context {W : Type} (host : Host W).
Variable search : source_type -> string -> option (string * string * string).


(** X16: The main block builds the monitor from the arguments as they are, with
    an empty blocked set and no history, and sets the firewall before it
    starts monitoring: the parser it hands to [start_monitoring] has a
    firewall in the mode asked for.  When the detection of the firewall
    raises, no parser is built and no thread is started. *)
Theorem main_start_wiring (args : Args) (w : W) :
  let o := main_start host args w in
  (forall p, self o = Some p ->
     exists fw,
       firewall (security_monitor p) = Some fw
       /\ simulation_mode fw = simulate args
       /\ io_val (_detect_available_firewall host w) = Ret (firewall_system fw)
       /\ failure_threshold (security_monitor p) = threshold args
       /\ time_window (security_monitor p) = window args
       /\ safe_ips (security_monitor p) = list_to_set (whitelist args)
       /\ blocked_ips (security_monitor p) = ∅
       /\ failures_by_ip (security_monitor p) = ∅)
  /\ (self o = None ->
      thread_starts (trace o) = 0%nat
      /\ exists e, value o = Raise e
                   /\ io_val (_detect_available_firewall host w) = Raise e).
Proof.
  intros o. subst o. unfold main_start, FirewallController_init.
  destruct (io_val (_detect_available_firewall host w)) as [sys|e] eqn:Hd;
    cbn [io_val io_world io_trace self value trace].
  - split; [|discriminate].
    intros p [= <-].
    eexists. split.
    + unfold start_monitoring. cbn [is_active SSHLogParser_init].
      destruct (io_val (determine_log_source host _ _)); reflexivity.
    + unfold start_monitoring. cbn [is_active SSHLogParser_init].
      destruct (io_val (determine_log_source host _ _)); repeat split.
  - split; [discriminate|]. intros _. split; [|by exists e].
    clear Hd. unfold _detect_available_firewall, detect_iptables.
    destruct (subprocess_run host ufw_status_argv w) as [[cp|[]] w1];
      [destruct (_ && _)|..]; try reflexivity.
    all: destruct (subprocess_run host iptables_version_argv w1) as [[cp2|[]] w2];
      [destruct (returncode cp2 =? 0)|..]; reflexivity.
Qed.

End EntryMore.

Lemma ufw_block_twice_denies_twice_witness :
  let fw := {| simulation_mode := false; firewall_system := "ufw" |} in
  external_calls
    (io_trace (block_ip Demo.host fw Demo.attacker [])
     ++ io_trace (block_ip Demo.host fw Demo.attacker
                    (io_world (block_ip Demo.host fw Demo.attacker []))))
  = [Run (ufw_deny_argv Demo.attacker); Run (ufw_deny_argv Demo.attacker)]
  /\ ~ (exists cp, (subprocess_run Demo.host (ufw_deny_argv Demo.attacker) []).1 = Ok cp
                   /\ returncode cp = 0).
Proof.
  intros fw.
  destruct (ufw_block_twice_denies_twice Demo.host Demo.attacker []) as [Hcalls Hiff].
  split; [exact Hcalls|].
  intros Hex. apply Hiff in Hex. discriminate Hex.
Defined.

Lemma log_source_priority_witness :
  let r := determine_log_source Demo.host
             (SSHLogParser_init (SecurityMonitor_init 5 60 [])) [] in
  io_val r = Ret auth_log
  /\ external_calls (io_trace r)
     = [PathExists "/var/log/auth.log"; Access "/var/log/auth.log"].
Proof.
  intros r.
  destruct (log_source_priority Demo.host
              (SSHLogParser_init (SecurityMonitor_init 5 60 [])) [])
    as (Hiff & Hcalls & _).
  assert (Hr : io_val r = Ret auth_log) by (apply Hiff; split; reflexivity).
  split; [exact Hr | exact (Hcalls Hr)].
Defined.

Lemma start_twice_starts_once_witness :
  let p := SSHLogParser_init (SecurityMonitor_init 5 60 []) in
  let o1 := start_monitoring Demo.host p [] in
  let o2 := start_monitoring Demo.host (self o1) (world o1) in
  is_active (self o1) = true
  /\ o2 = Outcome (Ret ()) (self o1) (world o1) [Log Warning_already_running]
  /\ thread_starts (trace o1 ++ trace o2)
     = match value o1 with Ret _ => 1%nat | Raise _ => 0%nat end.
Proof.
  intros p.
  refine (start_twice_starts_once Demo.host p [] _). reflexivity.
Defined.


Lemma main_start_wiring_witness :
  let args := {| threshold := 5; window := 60;
                 whitelist := ["10.0.0.5"]; simulate := true |} in
  exists p fw,
    self (main_start Demo.host args []) = Some p
    /\ firewall (security_monitor p) = Some fw
    /\ simulation_mode fw = true
    /\ firewall_system fw = "iptables"
    /\ failure_threshold (security_monitor p) = 5
    /\ blocked_ips (security_monitor p) = ∅.
Proof.
  intros args.
  destruct (main_start_wiring Demo.host args []) as [Hsome _].
  destruct (self (main_start Demo.host args [])) as [p|] eqn:Hp; [|discriminate Hp].
  destruct (Hsome p eq_refl) as (fw & Hfw & Hsim & Hsys & Hthr & _ & _ & Hbl & _).
  exists p, fw. split; [reflexivity|]. split; [exact Hfw|]. split; [exact Hsim|].
  split; [|split; [exact Hthr | exact Hbl]].
  change (io_val (_detect_available_firewall Demo.host [])) with (Ret (A := string) "iptables") in Hsys.
  by injection Hsys.
Defined.

Section IptablesRetry.
Context {W : Type} (host : Host W).

(** X17: With the iptables backend nothing remembers a failed add: when the
    existence check reports no rule at both calls of [block_ip], the
    add-rule command is run at both, whatever it returned the first time. *)
Theorem iptables_missing_rule_is_added_again (ip : string) (w : W)
    (status1 status2 : Z) :
  let fw := {| simulation_mode := false; firewall_system := "iptables" |} in
  let first := block_ip host fw ip w in
  let second := block_ip host fw ip (io_world first) in
  (os_system host (iptables_check_cmd ip) w).1 = Ok status1 ->
  status1 <> 0 ->
  (os_system host (iptables_check_cmd ip) (io_world first)).1 = Ok status2 ->
  status2 <> 0 ->
  add_rule_invocations ip (io_trace first ++ io_trace second) = 2%nat.
Proof.
  intros fw first second H1 Hs1 H2 Hs2. subst first second fw.
  change (block_ip host {| simulation_mode := false; firewall_system := "iptables" |} ip)
    with (_block_with_iptables host ip) in *.
  destruct (os_system host (iptables_check_cmd ip) w) as [c1 w1] eqn:E1.
  simpl in H1. subst c1.
  destruct (block_with_iptables_rule_missing host ip w w1 status1 E1 Hs1) as [Ha1 _].
  set (w2 := io_world (_block_with_iptables host ip w)) in *.
  destruct (os_system host (iptables_check_cmd ip) w2) as [c2 w3] eqn:E2.
  simpl in H2. subst c2.
  destruct (block_with_iptables_rule_missing host ip w2 w3 status2 E2 Hs2) as [Ha2 _].
  by rewrite add_rule_invocations_app, Ha1, Ha2.
Qed.

End IptablesRetry.

Lemma iptables_missing_rule_is_added_again_witness :
  add_rule_invocations Demo.attacker
    (io_trace (block_ip unprivileged_host Demo.iptables Demo.attacker [])
     ++ io_trace (block_ip unprivileged_host Demo.iptables Demo.attacker
                    (io_world (block_ip unprivileged_host Demo.iptables
                                 Demo.attacker []))))
  = 2%nat.
Proof.
  apply (iptables_missing_rule_is_added_again unprivileged_host Demo.attacker [] 256 256).
  - reflexivity.
  - lia.
  - reflexivity.
  - lia.
Defined.
